(** * Email validator: a shallow embedding of [email_validator.py]

    The validator is one pure function, [validate_email], running a fixed
    sequence of string checks and returning a pair [(bool, reason)].  The
    embedding keeps that shape: Python strings are lists of code points,
    the string methods the function calls ([strip], [count], [rsplit],
    [startswith], [endswith], [in], [split], [repr]) are list functions,
    the two compiled patterns are regular expressions run by a derivative
    matcher, and the places where Python could raise (tuple unpacking,
    [labels[-1]]) are explicit [Raises] branches.  The command line,
    [main], is a run over the calls of [print], any of which the stream
    behind standard output may make raise. *)

From Stdlib Require Import List NArith ZArith Bool Arith Lia String Ascii.
Import ListNotations.

Set Implicit Arguments.

(** ** Python values and strings *)

(** A Python [str] is a sequence of Unicode code points. *)
Definition char := N.
Definition pystr := list char.

Definition ord (a : ascii) : char := N_of_ascii a.

(** A string literal of the source, as a [pystr]. *)
Definition lit (s : string) : pystr := map ord (list_ascii_of_string s).
Arguments lit s%_string.

(** The builtin values the function may be handed.  Only [VStr] passes
    [isinstance(email, str)]. *)
#[warnings="-register-all"]
Inductive value : Type :=
| VNone
| VBool (b : bool)
| VInt (z : Z)
| VBytes (bs : list Byte.byte)
| VStr (s : pystr)
| VList (vs : list value).

Inductive exn : Type := ValueError | IndexError.

(** What a call does: return the pair, or raise. *)
Inductive outcome : Type :=
| Returns (r : bool * pystr)
| Raises (e : exn).

(** ** String methods *)

Open Scope N_scope.

(** [str.isspace] on one code point: the whitespace table of CPython
    ([_PyUnicode_IsWhitespace]). *)
Definition py_isspace (c : char) : bool :=
  ((0x09 <=? c) && (c <=? 0x0D)) || ((0x1C <=? c) && (c <=? 0x20))
  || (c =? 0x85) || (c =? 0xA0) || (c =? 0x1680)
  || ((0x2000 <=? c) && (c <=? 0x200A))
  || (c =? 0x2028) || (c =? 0x2029) || (c =? 0x202F) || (c =? 0x205F)
  || (c =? 0x3000).

Fixpoint py_lstrip (s : pystr) : pystr :=
  match s with
  | [] => []
  | c :: t => if py_isspace c then py_lstrip t else s
  end.

Definition py_rstrip (s : pystr) : pystr := rev (py_lstrip (rev s)).

(** [s.strip()] *)
Definition py_strip (s : pystr) : pystr := py_rstrip (py_lstrip s).

(** [s.count(c)] for a one-character [c]. *)
Fixpoint py_count (c : char) (s : pystr) : nat :=
  match s with
  | [] => 0%nat
  | x :: t => if x =? c then S (py_count c t) else py_count c t
  end.

(** [s.startswith(p)] *)
Fixpoint py_startswith (p s : pystr) : bool :=
  match p, s with
  | [], _ => true
  | _ :: _, [] => false
  | a :: p', b :: s' => (a =? b) && py_startswith p' s'
  end.

(** [s.endswith(p)] *)
Definition py_endswith (p s : pystr) : bool := py_startswith (rev p) (rev s).

(** [p in s] *)
Fixpoint py_contains (p s : pystr) : bool :=
  py_startswith p s ||
  match s with
  | [] => false
  | _ :: t => py_contains p t
  end.

(** The cut at the last occurrence of [c], if there is one. *)
Fixpoint rcut (c : char) (s : pystr) : option (pystr * pystr) :=
  match s with
  | [] => None
  | x :: t =>
      match rcut c t with
      | Some (l, d) => Some (x :: l, d)
      | None => if x =? c then Some ([], t) else None
      end
  end.

(** [s.rsplit(c, 1)] for a one-character [c]: one piece when [c] does not
    occur, two otherwise. *)
Definition py_rsplit1 (c : char) (s : pystr) : list pystr :=
  match rcut c s with
  | Some (l, d) => [l; d]
  | None => [s]
  end.

(** [s.split(c)] for a one-character [c]. *)
Fixpoint py_split (c : char) (s : pystr) : list pystr :=
  match s with
  | [] => [[]]
  | x :: t =>
      if x =? c then [] :: py_split c t
      else match py_split c t with
           | h :: r => (x :: h) :: r
           | [] => [[x]]
           end
  end.

(** [xs[-1]]: [None] stands for the IndexError of an empty list. *)
Fixpoint py_last (A : Type) (xs : list A) : option A :=
  match xs with
  | [] => None
  | [x] => Some x
  | _ :: t => py_last t
  end.

Definition is_empty (A : Type) (xs : list A) : bool :=
  match xs with [] => true | _ => false end.

(** ** Regular expressions

    [re] patterns as a syntax tree, matched by Brzozowski derivatives.
    Only the truth value of [pattern.match(s)] is used by the validator,
    so a matcher that decides membership is enough. *)

Inductive regex : Type :=
| Void
| Eps
| Class (p : char -> bool)
| Cat (r1 r2 : regex)
| Alt (r1 r2 : regex)
| Rep (lo hi : nat) (r : regex).

Fixpoint nullable (r : regex) : bool :=
  match r with
  | Void => false
  | Eps => true
  | Class _ => false
  | Cat a b => nullable a && nullable b
  | Alt a b => nullable a || nullable b
  | Rep lo hi a => (lo <=? hi)%nat && ((lo =? 0)%nat || nullable a)
  end.

Fixpoint deriv (c : char) (r : regex) : regex :=
  match r with
  | Void => Void
  | Eps => Void
  | Class p => if p c then Eps else Void
  | Cat a b =>
      if nullable a then Alt (Cat (deriv c a) b) (deriv c b)
      else Cat (deriv c a) b
  | Alt a b => Alt (deriv c a) (deriv c b)
  | Rep lo hi a =>
      match hi with
      | O => Void
      | S hi' =>
          if (lo <=? hi)%nat then Cat (deriv c a) (Rep (pred lo) hi' a)
          else Void
      end
  end.

(** The whole of [s] is in the language of [r]. *)
Fixpoint accepts (r : regex) (s : pystr) : bool :=
  match s with
  | [] => nullable r
  | c :: t => accepts (deriv c r) t
  end.

(** [re.compile("^" + r + "$").match(s)] as a truth value.  Without
    [re.MULTILINE], [$] holds at the end of the string and also just
    before a newline that ends the string. *)
Definition re_match (r : regex) (s : pystr) : bool :=
  accepts r s ||
  match rev s with
  | c :: t => (c =? 10) && accepts r (rev t)
  | [] => false
  end.

(** Character classes of the two patterns. *)
Definition in_range (lo hi : ascii) (c : char) : bool :=
  (ord lo <=? c) && (c <=? ord hi).

Definition is_alpha (c : char) : bool :=
  in_range "A" "Z" c || in_range "a" "z" c.

Definition is_digit (c : char) : bool := in_range "0" "9" c.

Definition is_alnum (c : char) : bool := is_alpha c || is_digit c.

Definition is_alnum_hyphen (c : char) : bool := is_alnum c || (c =? ord "-").

(** The language of a pattern, to reason about what [accepts] decides. *)
Fixpoint pow (L : pystr -> Prop) (k : nat) (s : pystr) : Prop :=
  match k with
  | O => s = []
  | S k' => exists s1 s2, s = s1 ++ s2 /\ L s1 /\ pow L k' s2
  end.

Fixpoint lang (r : regex) (s : pystr) : Prop :=
  match r with
  | Void => False
  | Eps => s = []
  | Class p => exists c, s = [c] /\ p c = true
  | Cat a b => exists s1 s2, s = s1 ++ s2 /\ lang a s1 /\ lang b s2
  | Alt a b => lang a s \/ lang b s
  | Rep lo hi a => exists k, (lo <= k <= hi)%nat /\ pow (lang a) k s
  end.

(** ** The module's constants *)

(** [_LOCAL_ALLOWED]: the characters allowed in an unquoted local part. *)
Definition _LOCAL_ALLOWED : list char :=
  lit "abcdefghijklmnopqrstuvwxyz"
  ++ lit "ABCDEFGHIJKLMNOPQRSTUVWXYZ"
  ++ lit "0123456789"
  ++ lit "!#$%&'*+/=?^_`{|}~.-".

(** [ch in set] *)
Definition in_set (ch : char) (set : list char) : bool :=
  existsb (N.eqb ch) set.
Arguments in_set : simpl never.

Definition allowed (c : char) : bool := in_set c _LOCAL_ALLOWED.

(** [^[A-Za-z0-9](?:[A-Za-z0-9-]{0,61}[A-Za-z0-9])?$] *)
Definition _label_re : regex :=
  Cat (Class is_alnum)
      (Rep 0 1 (Cat (Rep 0 61 (Class is_alnum_hyphen)) (Class is_alnum))).

(** [^[A-Za-z]{2,63}$] *)
Definition _tld_re : regex := Rep 2 63 (Class is_alpha).

Definition at_sign : char := ord "@".
Definition dot : char := ord ".".

(** ** The reasons *)

Definition msg_ok : pystr := lit "OK".
Definition msg_not_string : pystr := lit "Email must be a string.".
Definition msg_empty : pystr :=
  lit "Email is empty after stripping whitespace.".
Definition msg_too_long : pystr :=
  lit "Email is too long (more than 254 characters).".
Definition msg_at_count : pystr :=
  lit "Email must contain exactly one '@' character.".
Definition msg_local_empty : pystr := lit "Local part (before '@') is empty.".
Definition msg_local_too_long : pystr :=
  lit "Local part is too long (more than 64 characters).".
Definition msg_local_dot_ends : pystr :=
  lit "Local part must not start or end with a dot.".
Definition msg_local_dot_dot : pystr :=
  lit "Local part must not contain consecutive dots.".
Definition msg_domain_empty : pystr := lit "Domain part (after '@') is empty.".
Definition msg_domain_too_long : pystr :=
  lit "Domain part is too long (more than 255 characters).".
Definition msg_domain_dot_ends : pystr :=
  lit "Domain must not start or end with a dot.".
Definition msg_domain_dot_dot : pystr :=
  lit "Domain must not contain consecutive dots.".
Definition msg_no_tld_dot : pystr :=
  lit "Domain should contain at least one dot (e.g., example.com).".
Definition msg_label_empty : pystr :=
  lit "Empty domain label (consecutive dots or leading/trailing dot).".
Definition msg_label_too_long (label : pystr) : pystr :=
  lit "Domain label '" ++ label ++ lit "' is too long (more than 63 chars).".
Definition msg_label_invalid (label : pystr) : pystr :=
  lit "Invalid domain label: '" ++ label
  ++ lit "'. Labels must start and end with letter or digit; internal chars may include hyphens.".
Definition msg_tld (tld : pystr) : pystr :=
  lit "Top-level domain '" ++ tld
  ++ lit "' must be alphabetic and 2-63 characters long.".

(** A table for [str.isprintable] that calls every code point printable;
    the concrete runs below use it (they only reach ASCII). *)
Definition all_printable (c : char) : bool := true.

(** A standard output that encodes ASCII only: [print] raises on a text
    with any other code point.  The concrete runs of [main] use it. *)
Inductive stream_error : Type := UnicodeEncodeError.

Definition ascii_stdout (out : list pystr) (text : pystr)
  : option stream_error :=
  if forallb (fun c => c <? 128) text then None else Some UnicodeEncodeError.

Section Validator.

#[local] Set Default Proof Using "Type".

(** [str.isprintable] on a code point outside ASCII is a table of the
    Unicode database; [repr] consults it for those code points only. *)
Variable unicode_isprintable : char -> bool.

Definition backslash : char := 92.
Definition quote1 : char := 39.
Definition quote2 : char := 34.

Definition hex_digit (d : N) : char :=
  if d <? 10 then ord "0" + d else ord "a" + (d - 10).

Fixpoint hex (width : nat) (c : N) : pystr :=
  match width with
  | O => []
  | S w => hex w (c / 16) ++ [hex_digit (c mod 16)]
  end.

(** One character of a [repr], inside the quotes [quote]. *)
Definition repr_char (quote c : char) : pystr :=
  if (c =? quote) || (c =? backslash) then [backslash; c]
  else if c =? 9 then [backslash; ord "t"]
  else if c =? 10 then [backslash; ord "n"]
  else if c =? 13 then [backslash; ord "r"]
  else if (c <? 32) || (c =? 127) then [backslash; ord "x"] ++ hex 2 c
  else if c <? 127 then [c]
  else if unicode_isprintable c then [c]
  else if c <=? 0xFF then [backslash; ord "x"] ++ hex 2 c
  else if c <=? 0xFFFF then [backslash; ord "u"] ++ hex 4 c
  else [backslash; ord "U"] ++ hex 8 c.

(** [repr(s)] of a [str]: single quotes, unless the text has a single
    quote and no double quote. *)
Definition py_repr (s : pystr) : pystr :=
  let quote :=
    if in_set quote1 s && negb (in_set quote2 s) then quote2 else quote1 in
  [quote] ++ flat_map (repr_char quote) s ++ [quote].

Definition msg_bad_char (ch : char) : pystr :=
  lit "Invalid character in local part: " ++ py_repr [ch].

(** [for ch in local: if ch not in _LOCAL_ALLOWED: return ...]; [None]
    when the loop runs to its end. *)
Fixpoint check_local_chars (local : pystr) : option (bool * pystr) :=
  match local with
  | [] => None
  | ch :: rest =>
      if negb (in_set ch _LOCAL_ALLOWED) then Some (false, msg_bad_char ch)
      else check_local_chars rest
  end.

(** [for label in labels: ...]; [None] when the loop runs to its end. *)
Fixpoint check_labels (labels : list pystr) : option (bool * pystr) :=
  match labels with
  | [] => None
  | label :: rest =>
      if is_empty label then Some (false, msg_label_empty)
      else if (63 <? List.length label)%nat then
        Some (false, msg_label_too_long label)
      else if negb (re_match _label_re label) then
        Some (false, msg_label_invalid label)
      else check_labels rest
  end.

(** The checks on the domain, from [if not domain] to the end. *)
Definition check_domain (domain : pystr) : outcome :=
  if is_empty domain then Returns (false, msg_domain_empty)
  else if (255 <? List.length domain)%nat then Returns (false, msg_domain_too_long)
  else if py_startswith [dot] domain || py_endswith [dot] domain then
    Returns (false, msg_domain_dot_ends)
  else if py_contains [dot; dot] domain then
    Returns (false, msg_domain_dot_dot)
  else
    let labels := py_split dot domain in
    if (List.length labels <? 2)%nat then Returns (false, msg_no_tld_dot)
    else
      match check_labels labels with
      | Some r => Returns r
      | None =>
          match py_last labels with
          | None => Raises IndexError
          | Some tld =>
              if negb (re_match _tld_re tld) then Returns (false, msg_tld tld)
              else Returns (true, msg_ok)
          end
      end.

(** The checks on the local part, then those on the domain. *)
Definition check_parts (local domain : pystr) : outcome :=
  if is_empty local then Returns (false, msg_local_empty)
  else if (64 <? List.length local)%nat then Returns (false, msg_local_too_long)
  else if py_startswith [dot] local || py_endswith [dot] local then
    Returns (false, msg_local_dot_ends)
  else if py_contains [dot; dot] local then Returns (false, msg_local_dot_dot)
  else
    match check_local_chars local with
    | Some r => Returns r
    | None => check_domain domain
    end.

Definition validate_email (email : value) : outcome :=
  match email with
  | VStr email =>
      let email := py_strip email in
      if is_empty email then Returns (false, msg_empty)
      else if (254 <? List.length email)%nat then Returns (false, msg_too_long)
      else if negb (py_count at_sign email =? 1)%nat then
        Returns (false, msg_at_count)
      else
        match py_rsplit1 at_sign email with
        | [local; domain] => check_parts local domain
        | _ => Raises ValueError
        end
  | _ => Returns (false, msg_not_string)
  end.

(** The call on a string literal, to write the test-suite runs. *)
Definition validate_literal (x : string) : outcome :=
  validate_email (VStr (lit x)).

(** ** The command line

    [main] reads [sys.argv] and calls [print].  A run is observed as the
    texts of the [print] calls that returned, in order, and the way the
    run ends.  Whether a call of [print] raises is decided by the stream
    behind [sys.stdout] (its encoding, its state), not by the program:
    [print_raises out text] is the exception, if any, that [print(text)]
    raises once the calls [out] have returned. *)

Variable print_exn : Type.
Variable print_raises : list pystr -> pystr -> option print_exn.

(** How a run of [main] ends: by returning, by [sys.exit(code)], or with
    an exception that nothing catches, out of [validate_email] or out of
    [print]. *)
Inductive ending : Type :=
| Finished
| SystemExit (code : Z)
| ValidatorRaised (e : exn)
| PrintRaised (e : print_exn).

Definition usage_line1 : pystr :=
  lit "Usage: python email_validator.py <email1> [<email2> ...]".
Definition usage_line2 : pystr :=
  lit "Or import validate_email(email) in your code.".

(** [print(text)] after the calls [out], then the rest of the run [k]. *)
Definition print_then (text : pystr) (out : list pystr)
    (k : list pystr -> list pystr * ending) : list pystr * ending :=
  match print_raises out text with
  | Some e => (out, PrintRaised e)
  | None => k (out ++ [text])
  end.

(** [for em in ...: valid, reason = validate_email(em); print(...)],
    after the calls [out]. *)
Fixpoint main_loop (ems : list pystr) (out : list pystr)
  : list pystr * ending :=
  match ems with
  | [] => (out, Finished)
  | em :: rest =>
      match validate_email (VStr em) with
      | Raises e => (out, ValidatorRaised e)
      | Returns (valid, reason) =>
          if valid then
            print_then (lit "[VALID]   " ++ em) out (main_loop rest)
          else
            print_then (lit "[INVALID] " ++ em ++ lit "  -> " ++ reason)
              out (main_loop rest)
      end
  end.

(** [main()] on [sys.argv = argv]. *)
Definition main (argv : list pystr) : list pystr * ending :=
  if (List.length argv =? 1)%nat then
    print_then usage_line1 []
      (fun out =>
         print_then usage_line2 out (fun out' => (out', SystemExit 0)))
  else main_loop (tl argv) [].

(** The text the body of the loop hands to [print] for one argument that
    the validator returns on. *)
Definition report (em : pystr) : pystr :=
  match validate_email (VStr em) with
  | Returns (true, _) => lit "[VALID]   " ++ em
  | Returns (false, reason) => lit "[INVALID] " ++ em ++ lit "  -> " ++ reason
  | Raises _ => []
  end.

(** ** The rules of the module's docstring *)

(** A label has 1 to 63 characters, starts and ends with a letter or a
    digit, and has letters, digits and hyphens only. *)
Definition label_rule (l : pystr) : bool :=
  (1 <=? List.length l)%nat && (List.length l <=? 63)%nat
  && is_alnum (hd 0 l) && is_alnum (last l 0)
  && forallb is_alnum_hyphen l.

(** The top-level domain is alphabetic and has 2 to 63 characters. *)
Definition tld_rule (t : pystr) : bool :=
  (2 <=? List.length t)%nat && (List.length t <=? 63)%nat
  && forallb is_alpha t.



(** The input got as far as [local, domain = email.rsplit('@', 1)]: the
    stripped text is not empty, has at most 254 characters and exactly one
    [@], and these are the two pieces. *)
Definition splits_into (s local domain : pystr) : Prop :=
  let email := py_strip s in
  email <> [] /\ (List.length email <= 254)%nat
  /\ py_count at_sign email = 1%nat
  /\ py_rsplit1 at_sign email = [local; domain].

(** [isinstance(email, str)] *)
Definition is_str (v : value) : bool :=
  match v with VStr _ => true | _ => false end.

(** A leading dot, a trailing dot or two dots in a row. *)
Definition bad_dots (x : pystr) : Prop :=
  py_startswith [dot] x = true \/ py_endswith [dot] x = true
  \/ py_contains [dot; dot] x = true.

(** The reasons a call can return with [False]. *)
Inductive failure_reason : pystr -> Prop :=
| fr_not_string : failure_reason msg_not_string
| fr_empty : failure_reason msg_empty
| fr_too_long : failure_reason msg_too_long
| fr_at_count : failure_reason msg_at_count
| fr_local_empty : failure_reason msg_local_empty
| fr_local_too_long : failure_reason msg_local_too_long
| fr_local_dot_ends : failure_reason msg_local_dot_ends
| fr_local_dot_dot : failure_reason msg_local_dot_dot
| fr_bad_char ch : failure_reason (msg_bad_char ch)
| fr_domain_empty : failure_reason msg_domain_empty
| fr_domain_dot_ends : failure_reason msg_domain_dot_ends
| fr_domain_dot_dot : failure_reason msg_domain_dot_dot
| fr_no_tld_dot : failure_reason msg_no_tld_dot
| fr_label_too_long label : failure_reason (msg_label_too_long label)
| fr_label_invalid label : failure_reason (msg_label_invalid label)
| fr_tld tld : failure_reason (msg_tld tld).

(** Everything the function checks, said of the stripped text [email]
    and its two parts. *)
Definition well_formed (email local domain : pystr) : Prop :=
  email = local ++ at_sign :: domain
  /\ (List.length email <= 254)%nat
  /\ local <> [] /\ (List.length local <= 64)%nat
  /\ ~ bad_dots local /\ forallb allowed local = true
  /\ ~ In at_sign domain /\ ~ bad_dots domain
  /\ (2 <= List.length (py_split dot domain))%nat
  /\ (forall label, In label (py_split dot domain) ->
        label <> [] /\ (List.length label <= 63)%nat
        /\ re_match _label_re label = true)
  /\ exists tld, py_last (py_split dot domain) = Some tld
                 /\ re_match _tld_re tld = true.

(** The text that [repr] puts between the quotes for the character [c]:
    the character itself, a two-character escape, or a hexadecimal escape
    of two, four or eight digits. *)
Definition escape_of (c : char) (body : pystr) : Prop :=
  body = [c]
  \/ (c = 92 /\ body = [92; 92])
  \/ (c = 9 /\ body = [92; ord "t"])
  \/ (c = 10 /\ body = [92; ord "n"])
  \/ (c = 13 /\ body = [92; ord "r"])
  \/ (c < 256 /\ body = [92; ord "x"] ++ hex 2 c)
  \/ (c < 65536 /\ body = [92; ord "u"] ++ hex 4 c)
  \/ body = [92; ord "U"] ++ hex 8 c.

(** ** Facts about the string methods *)

Lemma is_empty_true (A : Type) (xs : list A) : is_empty xs = true -> xs = [].
Proof. destruct xs; [reflexivity | discriminate]. Qed.

Lemma is_empty_false (A : Type) (xs : list A) :
  is_empty xs = false -> xs <> [].
Proof. destruct xs; [discriminate | intros _ H; discriminate H]. Qed.

Lemma py_count_app c s t :
  py_count c (s ++ t) = (py_count c s + py_count c t)%nat.
Proof.
  induction s as [|x s IH]; simpl; [reflexivity|].
  destruct (x =? c); rewrite IH; reflexivity.
Qed.

Lemma py_count_rev c s : py_count c (rev s) = py_count c s.
Proof.
  induction s as [|x s IH]; simpl; [reflexivity|].
  rewrite py_count_app, IH; simpl.
  destruct (x =? c); lia.
Qed.

Lemma py_count_lstrip c s :
  py_isspace c = false -> py_count c (py_lstrip s) = py_count c s.
Proof.
  intros Hc. induction s as [|x s IH]; simpl; [reflexivity|].
  destruct (py_isspace x) eqn:Hx; simpl; [|reflexivity].
  destruct (N.eqb_spec x c) as [->|_]; [congruence | exact IH].
Qed.

(** Stripping removes whitespace only, so it keeps the count of any other
    character. *)
Lemma py_count_strip c s :
  py_isspace c = false -> py_count c (py_strip s) = py_count c s.
Proof.
  intros Hc. unfold py_strip, py_rstrip.
  rewrite py_count_rev, py_count_lstrip, py_count_rev by assumption.
  apply py_count_lstrip; assumption.
Qed.

Lemma py_count_zero_not_in c s : py_count c s = 0%nat <-> ~ In c s.
Proof.
  induction s as [|x s IH]; simpl; [split; [intros _ [] | reflexivity]|].
  destruct (N.eqb_spec x c) as [->|Hne].
  - split; [discriminate | intros H; exfalso; apply H; left; reflexivity].
  - rewrite IH. split.
    + intros H [E|Hin]; [exact (Hne E) | exact (H Hin)].
    + intros H Hin. apply H. right. exact Hin.
Qed.

(** [rsplit] cuts at the last separator: nothing of it is left on the
    right. *)
Lemma rcut_Some c s l d :
  rcut c s = Some (l, d) -> s = l ++ c :: d /\ py_count c d = 0%nat.
Proof.
  revert l d. induction s as [|x s IH]; simpl; intros l d H; [discriminate|].
  destruct (rcut c s) as [[l' d']|] eqn:Hr.
  - injection H as <- <-. destruct (IH _ _ eq_refl) as [-> Hd].
    split; [reflexivity | exact Hd].
  - destruct (N.eqb_spec x c) as [->|_]; [|discriminate].
    injection H as <- <-. split; [reflexivity|].
    clear IH. induction s as [|y s IHs]; simpl in *; [reflexivity|].
    destruct (rcut c s) as [[? ?]|]; [discriminate|].
    destruct (y =? c); [discriminate | apply IHs; reflexivity].
Qed.

Lemma rcut_None c s : rcut c s = None -> py_count c s = 0%nat.
Proof.
  induction s as [|x s IH]; simpl; [reflexivity|].
  destruct (rcut c s) as [[? ?]|]; [discriminate|].
  destruct (x =? c); [discriminate | intros _; apply IH; reflexivity].
Qed.

(** With a separator present, [rsplit(c, 1)] returns exactly two pieces
    that put the text back together. *)
Lemma py_rsplit1_two c s :
  py_count c s <> 0%nat ->
  exists l d, py_rsplit1 c s = [l; d] /\ s = l ++ c :: d
              /\ py_count c d = 0%nat.
Proof.
  intros Hn. unfold py_rsplit1.
  destruct (rcut c s) as [[l d]|] eqn:Hr.
  - exists l, d. destruct (rcut_Some _ _ Hr). auto.
  - apply rcut_None in Hr. contradiction.
Qed.

Lemma py_rsplit1_inv c s l d :
  py_rsplit1 c s = [l; d] -> s = l ++ c :: d /\ py_count c d = 0%nat.
Proof.
  unfold py_rsplit1. destruct (rcut c s) as [[l' d']|] eqn:Hr.
  - intros H; injection H as <- <-. exact (rcut_Some _ _ Hr).
  - discriminate.
Qed.

Lemma py_split_not_nil c s : py_split c s <> [].
Proof.
  destruct s as [|x s]; simpl; [discriminate|].
  destruct (x =? c); [discriminate|].
  destruct (py_split c s); discriminate.
Qed.

(** Without a separator, [split] returns the text as its only piece. *)
Lemma py_split_no_sep c s : py_count c s = 0%nat -> py_split c s = [s].
Proof.
  induction s as [|x s IH]; simpl; [reflexivity|].
  destruct (x =? c); [discriminate|].
  intros H. rewrite (IH H). reflexivity.
Qed.

Lemma py_last_not_nil (A : Type) (xs : list A) :
  xs <> [] -> exists x, py_last xs = Some x.
Proof.
  induction xs as [|x xs IH]; [congruence|]. intros _.
  destruct xs as [|y ys]; [exists x; reflexivity|].
  apply IH. discriminate.
Qed.

(** ** Soundness of the matcher *)

Lemma pow_nil (L : pystr -> Prop) k : L [] -> pow L k [].
Proof.
  intros HL. induction k as [|k IH]; simpl; [reflexivity|].
  exists [], []. auto.
Qed.

Lemma nullable_sound r : nullable r = true -> lang r [].
Proof.
  induction r as [| |p|a IHa b IHb|a IHa b IHb|lo hi a IHa]; simpl;
    try discriminate; try reflexivity.
  - rewrite andb_true_iff. intros [Ha Hb]. exists [], []. auto.
  - rewrite orb_true_iff. intros [Ha|Hb]; auto.
  - rewrite andb_true_iff, orb_true_iff, Nat.leb_le, Nat.eqb_eq.
    intros [Hle [H0|Ha]].
    + exists 0%nat. split; [lia | reflexivity].
    + exists lo. split; [lia | apply pow_nil; auto].
Qed.

Lemma deriv_sound c r : forall t, lang (deriv c r) t -> lang r (c :: t).
Proof.
  induction r as [| |p|a IHa b IHb|a IHa b IHb|lo hi a IHa]; simpl; intros t H.
  - contradiction.
  - contradiction.
  - destruct (p c) eqn:Hp; simpl in H; [|contradiction].
    subst t. exists c. auto.
  - assert (Hcat : lang (Cat (deriv c a) b) t ->
                   exists s1 s2, c :: t = s1 ++ s2 /\ lang a s1 /\ lang b s2).
    { intros (t1 & t2 & -> & H1 & H2). exists (c :: t1), t2. auto. }
    destruct (nullable a) eqn:Hn; [|auto].
    destruct H as [H|H]; [auto|].
    exists [], (c :: t). auto using nullable_sound.
  - destruct H as [H|H]; auto.
  - destruct hi as [|hi']; [contradiction|].
    destruct (Nat.leb_spec lo (S hi')) as [Hle|_]; [|contradiction].
    destruct H as (t1 & t2 & -> & H1 & k & Hk & H2).
    exists (S k). split; [lia|].
    exists (c :: t1), t2. auto.
Qed.

(** What [accepts] says yes to is in the language of the pattern. *)
Lemma accepts_sound s : forall r, accepts r s = true -> lang r s.
Proof.
  induction s as [|c t IH]; simpl; intros r H.
  - apply nullable_sound; assumption.
  - apply deriv_sound, IH; assumption.
Qed.

(** *** Completeness of the matcher *)

Lemma nullable_complete r : lang r [] -> nullable r = true.
Proof.
  induction r as [| |p|a IHa b IHb|a IHa b IHb|lo hi a IHa]; simpl.
  - intros [].
  - reflexivity.
  - intros (c & H & _). discriminate H.
  - intros (s1 & s2 & H & H1 & H2). symmetry in H.
    apply app_eq_nil in H. destruct H as [-> ->].
    rewrite IHa, IHb by assumption. reflexivity.
  - intros [H|H]; [rewrite IHa | rewrite IHb]; auto using orb_true_r.
  - intros (k & Hk & Hpow).
    apply andb_true_iff. split; [apply Nat.leb_le; lia|].
    destruct lo as [|lo']; [reflexivity|]. simpl.
    destruct k as [|k']; [lia|].
    destruct Hpow as (s1 & s2 & H & H1 & _). symmetry in H.
    apply app_eq_nil in H. destruct H as [-> _]. auto.
Qed.

Lemma pow_pad (L : pystr -> Prop) j k s :
  L [] -> (j <= k)%nat -> pow L j s -> pow L k s.
Proof.
  intros HL Hjk Hpow. induction Hjk as [|k Hjk IH]; [exact Hpow|].
  exists [], s. auto.
Qed.

(** The first character of a word of [L^k] starts one of its pieces; the
    pieces before it are empty. *)
Lemma pow_first_char (L : pystr -> Prop) k c t :
  pow L k (c :: t) ->
  exists j t1 t2,
    (j < k)%nat /\ t = t1 ++ t2 /\ L (c :: t1) /\ pow L j t2
    /\ (S j < k -> L [])%nat.
Proof.
  induction k as [|k IH]; simpl; [discriminate|].
  intros (s1 & s2 & H & H1 & H2).
  destruct s1 as [|x s1]; simpl in H.
  - subst s2. destruct (IH H2) as (j & t1 & t2 & Hj & Ht & Hc & Hp & _).
    exists j, t1, t2. repeat split; auto.
  - injection H as <- ->. exists k, s1, s2. repeat split; auto. lia.
Qed.

Lemma deriv_complete c r : forall t, lang r (c :: t) -> lang (deriv c r) t.
Proof.
  induction r as [| |p|a IHa b IHb|a IHa b IHb|lo hi a IHa]; simpl; intros t H.
  - contradiction.
  - discriminate H.
  - destruct H as (x & H & Hp). injection H as -> ->. rewrite Hp. reflexivity.
  - destruct H as (s1 & s2 & H & H1 & H2).
    destruct s1 as [|x s1]; simpl in H.
    + subst s2. rewrite (nullable_complete _ H1). right. auto.
    + injection H as <- ->.
      assert (Hcat : lang (Cat (deriv c a) b) (s1 ++ s2)).
      { exists s1, s2. auto. }
      destruct (nullable a); [left|]; exact Hcat.
  - destruct H as [H|H]; auto.
  - destruct H as (k & Hk & Hpow).
    apply pow_first_char in Hpow.
    destruct Hpow as (j & t1 & t2 & Hj & -> & Hc & Hp & Hnil).
    destruct hi as [|hi']; [lia|].
    destruct (Nat.leb_spec lo (S hi')) as [_|Hgt]; [|lia].
    exists t1, t2. repeat split; auto.
    exists (k - 1)%nat. split; [lia|].
    destruct (Nat.eq_dec (S j) k) as [<-|Hne].
    + replace (S j - 1)%nat with j by lia. exact Hp.
    + apply (@pow_pad (lang a) j); [apply Hnil; lia | lia | exact Hp].
Qed.

Lemma accepts_complete s : forall r, lang r s -> accepts r s = true.
Proof.
  induction s as [|c t IH]; simpl; intros r H.
  - apply nullable_complete; assumption.
  - apply IH, deriv_complete; assumption.
Qed.

(** *** Bounded repetitions of a character class *)

Lemma pow_class p k s :
  pow (lang (Class p)) k s -> List.length s = k /\ forallb p s = true.
Proof.
  revert s. induction k as [|k IH]; simpl; intros s H.
  - subst s. auto.
  - destruct H as (s1 & s2 & -> & (c & -> & Hc) & H2).
    destruct (IH _ H2) as [<- Hall]. simpl. rewrite Hc, Hall. auto.
Qed.

(** A bounded repetition of one character class: every character is in
    the class and the length is within the bounds. *)
Lemma accepts_rep_class p lo hi s :
  accepts (Rep lo hi (Class p)) s = true ->
  (lo <= List.length s <= hi)%nat /\ forallb p s = true.
Proof.
  intros H. apply accepts_sound in H. destruct H as (k & Hk & Hpow).
  apply pow_class in Hpow. destruct Hpow as [<- Hall]. auto.
Qed.

Lemma rev_cons_inv (A : Type) (s t : list A) c :
  rev s = c :: t -> s = rev t ++ [c].
Proof.
  intros H. rewrite <- (rev_involutive s), H. reflexivity.
Qed.

(** What the top-level-domain pattern says yes to: two to sixty-three
    letters, possibly followed by one newline. *)
Lemma tld_match_inv tld :
  re_match _tld_re tld = true ->
  exists body,
    (tld = body \/ tld = body ++ [10]) /\
    (2 <= List.length body <= 63)%nat /\ forallb is_alpha body = true.
Proof.
  unfold re_match, _tld_re. rewrite orb_true_iff. intros [H|H].
  - exists tld. split; [auto | apply accepts_rep_class; exact H].
  - destruct (rev tld) as [|c t] eqn:Hr; [discriminate|].
    rewrite andb_true_iff, N.eqb_eq in H. destruct H as [-> H].
    exists (rev t). split; [right; apply rev_cons_inv; exact Hr|].
    apply accepts_rep_class; exact H.
Qed.

Lemma digit_not_alpha c : is_digit c = true -> is_alpha c = false.
Proof.
  unfold is_digit, is_alpha, in_range, ord. simpl N_of_ascii.
  rewrite andb_true_iff, !N.leb_le. intros [H1 H2].
  apply orb_false_iff; split; apply andb_false_iff; rewrite !N.leb_gt; lia.
Qed.

(** A final label with a digit in it, or of one character, fails the
    top-level-domain pattern. *)
Lemma tld_rejects tld :
  existsb is_digit tld = true \/ List.length tld = 1%nat ->
  re_match _tld_re tld = false.
Proof.
  intros H. destruct (re_match _tld_re tld) eqn:Hm; [exfalso|reflexivity].
  apply tld_match_inv in Hm.
  destruct Hm as (body & Hshape & Hlen & Hall).
  assert (Hlen' : (2 <= List.length tld)%nat).
  { destruct Hshape as [->| ->]; [lia | rewrite length_app; lia]. }
  destruct H as [H|H]; [|lia].
  apply existsb_exists in H. destruct H as (c & Hin & Hd).
  rewrite forallb_forall in Hall.
  destruct Hshape as [->| ->].
  - apply digit_not_alpha in Hd. rewrite (Hall _ Hin) in Hd. discriminate.
  - apply in_app_or in Hin. destruct Hin as [Hin|[<-|[]]].
    + apply digit_not_alpha in Hd. rewrite (Hall _ Hin) in Hd. discriminate.
    + discriminate Hd.
Qed.

(** ** Empty labels *)

Lemma py_startswith_app p s t :
  py_startswith p s = true -> py_startswith p (s ++ t) = true.
Proof.
  revert s. induction p as [|a p IH]; intros s; [reflexivity|].
  destruct s as [|b s]; simpl; [discriminate|].
  rewrite !andb_true_iff. intros [Hab Hp]. auto.
Qed.

Lemma py_endswith_cons p x s :
  py_endswith p s = true -> py_endswith p (x :: s) = true.
Proof. unfold py_endswith. simpl. apply py_startswith_app. Qed.

Lemma py_contains_cons p x s :
  py_contains p s = true -> py_contains p (x :: s) = true.
Proof.
  intros H. simpl. rewrite orb_true_iff. right.
  destruct s; exact H.
Qed.

(** An empty piece after the first one comes from a trailing separator or
    from two separators in a row. *)
Lemma py_split_empty_tail c s :
  In [] (tl (py_split c s)) ->
  py_endswith [c] s = true \/ py_contains [c; c] s = true.
Proof.
  induction s as [|y u IH]; simpl; [intros []|].
  destruct (N.eqb_spec y c) as [->|Hy]; simpl.
  - destruct u as [|z v].
    + intros _. left. unfold py_endswith. simpl. rewrite N.eqb_refl. reflexivity.
    + simpl. destruct (N.eqb_spec z c) as [->|Hz].
      * intros _. right. rewrite !N.eqb_refl. reflexivity.
      * intros Hin.
        assert (Htl : In [] (tl (py_split c (z :: v)))).
        { simpl. destruct (N.eqb_spec z c) as [|_]; [contradiction|].
          destruct (py_split c v) as [|h r]; simpl in *.
          - destruct Hin as [Hin|[]]; discriminate Hin.
          - destruct Hin as [Hin|Hin]; [discriminate Hin | exact Hin]. }
        destruct (IH Htl) as [He|Hc].
        -- left. apply py_endswith_cons. exact He.
        -- right. apply (py_contains_cons [c; c] c (z :: v)). exact Hc.
  - intros Hin.
    assert (Htl : In [] (tl (py_split c u))).
    { destruct (py_split c u) as [|h r]; simpl in *; [contradiction | exact Hin]. }
    destruct (IH Htl) as [He|Hc].
    + left. apply py_endswith_cons. exact He.
    + right. apply (py_contains_cons [c; c] y u). exact Hc.
Qed.

(** An empty piece of [split] comes from an empty text, a leading or
    trailing separator, or two separators in a row. *)
Lemma py_split_empty_piece c s :
  In [] (py_split c s) ->
  s = [] \/ py_startswith [c] s = true \/ py_endswith [c] s = true
  \/ py_contains [c; c] s = true.
Proof.
  destruct s as [|x t]; [auto|]. intros Hin. right.
  destruct (N.eqb_spec c x) as [->|Hx].
  - left. simpl. rewrite N.eqb_refl. reflexivity.
  - right. apply py_split_empty_tail.
    simpl in *. destruct (N.eqb_spec x c) as [->|_]; [congruence|].
    destruct (py_split c t) as [|h r]; simpl in *.
    + destruct Hin as [Hin|[]]; discriminate Hin.
    + destruct Hin as [Hin|Hin]; [discriminate Hin | exact Hin].
Qed.

(** ** The two loops *)

(** The character loop returns at the first character outside the set. *)
Lemma check_local_chars_Some local r :
  check_local_chars local = Some r ->
  exists pre ch post,
    local = pre ++ ch :: post /\ forallb allowed pre = true
    /\ allowed ch = false /\ r = (false, msg_bad_char ch).
Proof.
  induction local as [|c rest IH]; simpl; [discriminate|].
  fold (allowed c). destruct (allowed c) eqn:Hc; simpl.
  - intros H. destruct (IH H) as (pre & ch & post & -> & Hpre & Hch & ->).
    exists (c :: pre), ch, post. simpl. rewrite Hc, Hpre. auto.
  - intros H. injection H as <-. exists [], c, rest. auto.
Qed.

Lemma check_local_chars_None local :
  check_local_chars local = None <-> forallb allowed local = true.
Proof.
  induction local as [|c rest IH]; simpl; [split; reflexivity|].
  fold (allowed c). destruct (allowed c); simpl; [exact IH|].
  split; discriminate.
Qed.

(** The label loop returns [False] with one of three reasons. *)
Lemma check_labels_Some labels r :
  check_labels labels = Some r ->
  exists label,
    In label labels /\
    (label = [] /\ r = (false, msg_label_empty)
     \/ r = (false, msg_label_too_long label)
     \/ r = (false, msg_label_invalid label)).
Proof.
  induction labels as [|l rest IH]; simpl; [discriminate|].
  destruct (is_empty l) eqn:He.
  { intros H. injection H as <-. apply is_empty_true in He.
    exists l. auto. }
  destruct (63 <? List.length l)%nat.
  { intros H. injection H as <-. exists l. auto. }
  destruct (re_match _label_re l); simpl.
  - intros H. destruct (IH H) as (label & Hin & Hr). exists label. auto.
  - intros H. injection H as <-. exists l. auto.
Qed.

(** With an empty label in the list the label loop does not run to its
    end. *)
Lemma check_labels_empty_label labels :
  In [] labels -> check_labels labels <> None.
Proof.
  induction labels as [|l rest IH]; simpl; [intros []|].
  intros [->|Hin]; [discriminate|].
  destruct (is_empty l); [discriminate|].
  destruct (63 <? List.length l)%nat; [discriminate|].
  destruct (re_match _label_re l); simpl; [auto | discriminate].
Qed.

(** ** The shape of every result *)

Lemma check_domain_shape domain :
  (List.length domain <= 255)%nat ->
  check_domain domain = Returns (true, msg_ok)
  \/ exists m, check_domain domain = Returns (false, m) /\ failure_reason m.
Proof.
  intros Hlen. unfold check_domain.
  destruct (is_empty domain) eqn:He.
  { right. eexists. split; [reflexivity | constructor]. }
  destruct (Nat.ltb_spec 255 (List.length domain)) as [Hgt|_]; [lia|].
  destruct (py_startswith [dot] domain || py_endswith [dot] domain) eqn:Hends.
  { right. eexists. split; [reflexivity | constructor]. }
  destruct (py_contains [dot; dot] domain) eqn:Hdd.
  { right. eexists. split; [reflexivity | constructor]. }
  cbv zeta.
  destruct (List.length (py_split dot domain) <? 2)%nat.
  { right. eexists. split; [reflexivity | constructor]. }
  destruct (check_labels (py_split dot domain)) as [r|] eqn:Hlabels.
  { right. apply check_labels_Some in Hlabels.
    destruct Hlabels as (label & Hin & [[-> ->]|[->| ->]]).
    - exfalso. apply py_split_empty_piece in Hin.
      apply orb_false_iff in Hends. destruct Hends as [Hs He'].
      apply is_empty_false in He.
      destruct Hin as [H|[H|[H|H]]]; congruence.
    - eexists. split; [reflexivity | constructor].
    - eexists. split; [reflexivity | constructor]. }
  destruct (py_last_not_nil (py_split_not_nil dot domain)) as [tld ->].
  destruct (re_match _tld_re tld); simpl.
  - left. reflexivity.
  - right. eexists. split; [reflexivity | constructor].
Qed.

Lemma check_parts_shape local domain :
  (List.length domain <= 255)%nat ->
  check_parts local domain = Returns (true, msg_ok)
  \/ exists m, check_parts local domain = Returns (false, m)
               /\ failure_reason m.
Proof.
  intros Hlen. unfold check_parts.
  destruct (is_empty local).
  { right. eexists. split; [reflexivity | constructor]. }
  destruct (64 <? List.length local)%nat.
  { right. eexists. split; [reflexivity | constructor]. }
  destruct (py_startswith [dot] local || py_endswith [dot] local).
  { right. eexists. split; [reflexivity | constructor]. }
  destruct (py_contains [dot; dot] local).
  { right. eexists. split; [reflexivity | constructor]. }
  destruct (check_local_chars local) as [r|] eqn:Hchars.
  { right. apply check_local_chars_Some in Hchars.
    destruct Hchars as (pre & ch & post & _ & _ & _ & ->).
    eexists. split; [reflexivity | constructor]. }
  apply check_domain_shape. exact Hlen.
Qed.

(** Every call returns: the pair [(True, "OK")], or [False] with one of
    the reasons of [failure_reason].  The two [Raises] branches, the
    domain-length reason and the empty-label reason are not among them. *)
Lemma validate_email_shape email :
  validate_email email = Returns (true, msg_ok)
  \/ exists m, validate_email email = Returns (false, m) /\ failure_reason m.
Proof.
  destruct email as [| | | |s|];
    try (right; eexists; split; [reflexivity | constructor]).
  unfold validate_email. cbv zeta.
  destruct (is_empty (py_strip s)).
  { right. eexists. split; [reflexivity | constructor]. }
  destruct (Nat.ltb_spec 254 (List.length (py_strip s))) as [_|Hlen].
  { right. eexists. split; [reflexivity | constructor]. }
  destruct (Nat.eqb_spec (py_count at_sign (py_strip s)) 1) as [Hone|_]; simpl.
  2:{ right. eexists. split; [reflexivity | constructor]. }
  destruct (@py_rsplit1_two at_sign (py_strip s)) as (l & d & -> & Hs & _);
    [lia|].
  apply check_parts_shape.
  rewrite Hs, length_app in Hlen. simpl in Hlen. lia.
Qed.

(** ** Telling the reasons apart *)

Lemma failure_reason_not_ok m : failure_reason m -> m <> msg_ok.
Proof.
  intros Hm E. destruct Hm;
    unfold msg_bad_char, msg_label_too_long, msg_label_invalid, msg_tld in E;
    try (vm_compute in E; discriminate E);
    match type of E with
    | lit ?p ++ ?x = _ => generalize dependent x; intros x E
    end; vm_compute in E; discriminate E.
Qed.

Lemma failure_reason_not_domain_too_long m :
  failure_reason m -> m <> msg_domain_too_long.
Proof.
  intros Hm E. destruct Hm;
    unfold msg_bad_char, msg_label_too_long, msg_label_invalid, msg_tld in E;
    try (vm_compute in E; discriminate E);
    match type of E with
    | lit ?p ++ ?x = _ => generalize dependent x; intros x E
    end; vm_compute in E; discriminate E.
Qed.

(** ** What a [True] result implies *)

Lemma check_domain_true_inv domain m :
  check_domain domain = Returns (true, m) ->
  domain <> [] /\ ~ bad_dots domain
  /\ (2 <= List.length (py_split dot domain))%nat
  /\ check_labels (py_split dot domain) = None
  /\ exists tld, py_last (py_split dot domain) = Some tld
                 /\ re_match _tld_re tld = true.
Proof.
  unfold check_domain, bad_dots.
  destruct (is_empty domain) eqn:He; [discriminate|].
  destruct (255 <? List.length domain)%nat; [discriminate|].
  destruct (py_startswith [dot] domain || py_endswith [dot] domain) eqn:Hends;
    [discriminate|].
  destruct (py_contains [dot; dot] domain) eqn:Hdd; [discriminate|].
  cbv zeta.
  destruct (Nat.ltb_spec (List.length (py_split dot domain)) 2) as [|Hlen];
    [discriminate|].
  destruct (check_labels (py_split dot domain)) as [r|] eqn:Hlabels.
  { apply check_labels_Some in Hlabels.
    destruct Hlabels as (label & _ & [[_ ->]|[->| ->]]); discriminate. }
  destruct (py_last (py_split dot domain)) as [tld|]; [|discriminate].
  destruct (re_match _tld_re tld) eqn:Htld; cbn [negb]; [|discriminate].
  intros _. apply orb_false_iff in Hends. destruct Hends as [Hs He'].
  repeat split; try assumption.
  - apply is_empty_false; assumption.
  - intros [H|[H|H]]; congruence.
  - exists tld. auto.
Qed.

Lemma check_parts_true_inv local domain m :
  check_parts local domain = Returns (true, m) ->
  local <> [] /\ (List.length local <= 64)%nat /\ ~ bad_dots local
  /\ forallb allowed local = true
  /\ check_domain domain = Returns (true, m).
Proof.
  unfold check_parts, bad_dots.
  destruct (is_empty local) eqn:He; [discriminate|].
  destruct (Nat.ltb_spec 64 (List.length local)) as [|Hlen]; [discriminate|].
  destruct (py_startswith [dot] local || py_endswith [dot] local) eqn:Hends;
    [discriminate|].
  destruct (py_contains [dot; dot] local) eqn:Hdd; [discriminate|].
  destruct (check_local_chars local) as [r|] eqn:Hchars.
  { apply check_local_chars_Some in Hchars.
    destruct Hchars as (pre & ch & post & _ & _ & _ & ->). discriminate. }
  intros H. apply orb_false_iff in Hends. destruct Hends as [Hs He'].
  repeat split; try assumption.
  - apply is_empty_false; assumption.
  - intros [H'|[H'|H']]; congruence.
  - apply check_local_chars_None; assumption.
Qed.

(** For a string that got as far as the split, the result is that of the
    checks on the two parts. *)
Lemma validate_email_split s local domain :
  splits_into s local domain ->
  validate_email (VStr s) = check_parts local domain.
Proof.
  unfold splits_into, validate_email. cbv zeta.
  intros (Hne & Hlen & Hone & ->).
  destruct (py_strip s) as [|c e] eqn:Hs; [congruence|]. simpl is_empty.
  destruct (Nat.ltb_spec 254 (List.length (c :: e))) as [|_]; [lia|].
  rewrite Hone. reflexivity.
Qed.

Lemma validate_email_true_inv s m :
  validate_email (VStr s) = Returns (true, m) ->
  exists local domain,
    splits_into s local domain /\ check_parts local domain = Returns (true, m).
Proof.
  unfold splits_into, validate_email. cbv zeta.
  destruct (is_empty (py_strip s)) eqn:He; [discriminate|].
  destruct (Nat.ltb_spec 254 (List.length (py_strip s))) as [|Hlen];
    [discriminate|].
  destruct (Nat.eqb_spec (py_count at_sign (py_strip s)) 1) as [Hone|_];
    simpl; [|discriminate].
  destruct (@py_rsplit1_two at_sign (py_strip s)) as (l & d & -> & _ & _);
    [lia|].
  intros H. exists l, d. apply is_empty_false in He. auto.
Qed.

(** A call that does not return [True] returns [False] with a reason. *)
Lemma not_valid_invalid email :
  (forall m, validate_email email <> Returns (true, m)) ->
  exists reason, validate_email email = Returns (false, reason).
Proof.
  intros Hnot. destruct (validate_email_shape email) as [H|(m & H & _)].
  - exfalso. exact (Hnot _ H).
  - exists m. exact H.
Qed.

(** The parts of a [True] result are the parts [rsplit] gave. *)
Lemma valid_parts s local domain m :
  py_rsplit1 at_sign (py_strip s) = [local; domain] ->
  validate_email (VStr s) = Returns (true, m) ->
  check_parts local domain = Returns (true, m).
Proof.
  intros Hsplit H. apply validate_email_true_inv in H.
  destruct H as (l & d & (_ & _ & _ & Hsplit') & H).
  rewrite Hsplit in Hsplit'. injection Hsplit' as <- <-. exact H.
Qed.

(** ** What [repr] of one character says *)

Lemma hex_digit_inj a b :
  a < 16 -> b < 16 -> hex_digit a = hex_digit b -> a = b.
Proof.
  unfold hex_digit, ord. simpl N_of_ascii. intros Ha Hb.
  destruct (N.ltb_spec a 10), (N.ltb_spec b 10); lia.
Qed.

(** Hexadecimal digits tell numbers of that many digits apart. *)
Lemma hex_inj w :
  forall a b, a < 16 ^ N.of_nat w -> b < 16 ^ N.of_nat w ->
              hex w a = hex w b -> a = b.
Proof.
  induction w as [|w IH]; intros a b Ha Hb H.
  - simpl in Ha, Hb. lia.
  - rewrite Nat2N.inj_succ, N.pow_succ_r' in Ha, Hb.
    simpl in H. apply app_inj_tail in H. destruct H as [Hhi Hlo].
    apply IH in Hhi; try (apply N.Div0.div_lt_upper_bound; assumption).
    apply hex_digit_inj in Hlo; try (apply N.mod_lt; discriminate).
    rewrite (N.div_mod a 16), (N.div_mod b 16) by discriminate.
    rewrite Hhi, Hlo. reflexivity.
Qed.

Lemma repr_char_escape c : c <> quote1 -> escape_of c (repr_char quote1 c).
Proof.
  intros Hq. unfold repr_char, escape_of, backslash, quote1 in *.
  destruct (N.eqb_spec c 39) as [|_]; [contradiction|].
  destruct (N.eqb_spec c 92) as [E|_]; cbn [orb].
  { subst c. right. left. auto. }
  destruct (N.eqb_spec c 9) as [E|_].
  { subst c. do 2 right. left. auto. }
  destruct (N.eqb_spec c 10) as [E|_].
  { subst c. do 3 right. left. auto. }
  destruct (N.eqb_spec c 13) as [E|_].
  { subst c. do 4 right. left. auto. }
  destruct (N.ltb_spec c 32) as [Hlo|Hlo]; cbn [orb].
  { do 5 right. left. split; [lia | reflexivity]. }
  destruct (N.eqb_spec c 127) as [E|_].
  { do 5 right. left. split; [lia | reflexivity]. }
  destruct (N.ltb_spec c 127) as [|_]; [left; reflexivity|].
  destruct (unicode_isprintable c); [left; reflexivity|].
  destruct (N.leb_spec c 255) as [H8|_].
  { do 5 right. left. split; [lia | reflexivity]. }
  destruct (N.leb_spec c 65535) as [H16|_].
  { do 6 right. left. split; [lia | reflexivity]. }
  do 7 right. reflexivity.
Qed.

(** [repr] of a one-character string: a quote, the character or its
    escape, and the same quote. *)
Lemma py_repr_single (c : char) :
  exists q body, py_repr [c] = q :: body ++ [q] /\ escape_of c body.
Proof.
  destruct (N.eq_dec c quote1) as [->|Hq].
  - exists quote2, [quote1]. split; [reflexivity | left; reflexivity].
  - exists quote1, (repr_char quote1 c).
    split; [|apply repr_char_escape; exact Hq].
    unfold py_repr, in_set. cbn [existsb flat_map].
    destruct (N.eqb_spec quote1 c) as [E|_]; [congruence|].
    cbn [orb andb]. rewrite app_nil_r. reflexivity.
Qed.

Lemma escape_of_inj (a b : char) (body : pystr) :
  a < 2 ^ 32 -> b < 2 ^ 32 -> escape_of a body -> escape_of b body -> a = b.
Proof.
  intros Ha Hb Ea Eb. unfold escape_of, ord in *. simpl N_of_ascii in *.
  destruct Ea as [->|[[-> ->]|[[-> ->]|[[-> ->]|[[-> ->]|[[H8 ->]|[[H16 ->]| ->]]]]]]];
    destruct Eb as [E|[[-> E]|[[-> E]|[[-> E]|[[-> E]|[[H8' E]|[[H16' E]|E]]]]]]];
    try (cbn [hex app] in E; congruence);
    apply app_inv_head in E; apply hex_inj in E; auto; simpl; lia.
Qed.

(** [repr] of a one-character string tells which character it is. *)
Lemma py_repr_char_inj (a b : char) :
  a <= 0x10FFFF -> b <= 0x10FFFF -> py_repr [a] = py_repr [b] -> a = b.
Proof.
  intros Ha Hb H.
  destruct (py_repr_single a) as (qa & ba & Hra & Ea).
  destruct (py_repr_single b) as (qb & bb & Hrb & Eb).
  rewrite Hra, Hrb in H. injection H as _ H.
  apply app_inj_tail in H. destruct H as [-> _].
  apply (escape_of_inj (body := bb)); auto; simpl; lia.
Qed.

(** A printable ASCII character other than the quote and the backslash
    stands for itself, between single quotes. *)
Lemma py_repr_ascii (c : char) :
  32 <= c < 127 -> c <> quote1 -> c <> backslash ->
  py_repr [c] = [quote1; c; quote1].
Proof.
  intros [Hlo Hhi] Hq Hb.
  unfold py_repr, in_set. cbn [existsb flat_map].
  destruct (N.eqb_spec quote1 c) as [E|_]; [congruence|].
  cbn [orb andb]. rewrite app_nil_r. unfold repr_char.
  destruct (N.eqb_spec c quote1) as [|_]; [contradiction|].
  destruct (N.eqb_spec c backslash) as [|_]; [contradiction|]. simpl orb.
  destruct (N.eqb_spec c 9) as [|_]; [lia|].
  destruct (N.eqb_spec c 10) as [|_]; [lia|].
  destruct (N.eqb_spec c 13) as [|_]; [lia|].
  destruct (N.ltb_spec c 32) as [|_]; [lia|].
  destruct (N.eqb_spec c 127) as [|_]; [lia|]. simpl orb.
  destruct (N.ltb_spec c 127) as [_|]; [reflexivity | lia].
Qed.

(** ** The claims *)

(** C1: every call returns a pair [(valid, reason)] and none raises; a
    value that is not a [str] gets [(False, "Email must be a string.")]. *)
Theorem validate_email_total (email : value) :
  (exists valid reason, validate_email email = Returns (valid, reason))
  /\ (is_str email = false ->
      validate_email email = Returns (false, msg_not_string)).
Proof.
  split.
  - destruct (validate_email_shape email) as [H|(m & H & _)]; eauto.
  - destruct email; simpl; intros H; try reflexivity. discriminate H.
Qed.

(** C2: the two literal addresses of the specification are valid. *)
Theorem literal_addresses_valid :
  validate_email (VStr (lit "alice@example.com")) = Returns (true, msg_ok)
  /\ validate_email (VStr (lit "user.name+tag+sorting@example.co.uk"))
     = Returns (true, msg_ok).
Proof. split; vm_compute; reflexivity. Qed.

(** C3, amended: a string whose count of [@] is not one is invalid; the
    reason is that of the first check that fails, which is the [@] count
    only when the stripped text is not empty and has at most 254
    characters. *)
Theorem at_count_rejected (s : pystr) :
  py_count at_sign s <> 1%nat ->
  validate_email (VStr s)
  = Returns (false,
             if is_empty (py_strip s) then msg_empty
             else if (254 <? List.length (py_strip s))%nat then msg_too_long
             else msg_at_count).
Proof.
  intros Hcount. unfold validate_email. cbv zeta.
  destruct (is_empty (py_strip s)); [reflexivity|].
  destruct (254 <? List.length (py_strip s))%nat; [reflexivity|].
  rewrite py_count_strip by reflexivity.
  destruct (Nat.eqb_spec (py_count at_sign s) 1) as [|_]; [contradiction|].
  reflexivity.
Qed.

(** C4: a string that is longer than 254 characters once stripped is
    invalid with the overall-length reason, whatever else is wrong with
    it. *)
Theorem too_long_rejected (s : pystr) :
  py_strip s <> [] ->
  (254 < List.length (py_strip s))%nat ->
  validate_email (VStr s) = Returns (false, msg_too_long).
Proof.
  intros Hne Hlen. unfold validate_email. cbv zeta.
  destruct (is_empty (py_strip s)) eqn:He.
  - apply is_empty_true in He. contradiction.
  - destruct (Nat.ltb_spec 254 (List.length (py_strip s))); [reflexivity|lia].
Qed.

(** C5: when the input got as far as the split and the local part passed
    the emptiness, length and dot checks, a character of the local part
    outside [_LOCAL_ALLOWED] makes the result invalid, and the reason
    names the first such character [ch]: it is the fixed text followed by
    [repr] of [ch], which is [ch] itself between single quotes when [ch]
    is printable ASCII other than the quote and the backslash, and which
    in every case tells [ch] apart from every other code point.  For
    [a b@example.com] the reason ends in the quoted space. *)
Theorem bad_local_char_named :
  (forall s local domain : pystr,
      splits_into s local domain ->
      local <> [] ->
      (List.length local <= 64)%nat ->
      ~ bad_dots local ->
      existsb (fun ch => negb (in_set ch _LOCAL_ALLOWED)) local = true ->
      exists pre ch post,
        local = pre ++ ch :: post
        /\ forallb allowed pre = true
        /\ in_set ch _LOCAL_ALLOWED = false
        /\ validate_email (VStr s)
           = Returns (false,
                      lit "Invalid character in local part: "
                      ++ py_repr [ch])
        /\ (32 <= ch < 127 -> ch <> quote1 -> ch <> backslash ->
            py_repr [ch] = [quote1; ch; quote1])
        /\ (forall ch' : char,
              ch <= 0x10FFFF -> ch' <= 0x10FFFF ->
              py_repr [ch'] = py_repr [ch] -> ch' = ch))
  /\ validate_email (VStr (lit "a b@example.com"))
     = Returns (false, lit "Invalid character in local part: ' '").
Proof.
  split; [|vm_compute; reflexivity].
  intros s local domain Hsplit Hne Hlen Hdots Hbad.
  rewrite (validate_email_split Hsplit). unfold check_parts.
  destruct (is_empty local) eqn:He;
    [apply is_empty_true in He; contradiction|].
  destruct (Nat.ltb_spec 64 (List.length local)) as [|_]; [lia|].
  destruct (py_startswith [dot] local || py_endswith [dot] local) eqn:Hends.
  { exfalso. apply Hdots. apply orb_true_iff in Hends.
    unfold bad_dots. tauto. }
  destruct (py_contains [dot; dot] local) eqn:Hdd.
  { exfalso. apply Hdots. unfold bad_dots. tauto. }
  destruct (check_local_chars local) as [r|] eqn:Hchars.
  - apply check_local_chars_Some in Hchars.
    destruct Hchars as (pre & ch & post & -> & Hpre & Hch & ->).
    exists pre, ch, post.
    repeat (split; [solve [auto]|]).
    split; [apply py_repr_ascii|].
    intros ch' Hr Hr'. apply py_repr_char_inj; assumption.
  - exfalso. apply check_local_chars_None in Hchars.
    apply existsb_exists in Hbad. destruct Hbad as (ch & Hin & Hch).
    rewrite forallb_forall in Hchars. specialize (Hchars _ Hin).
    unfold allowed in Hchars. rewrite Hchars in Hch. discriminate Hch.
Qed.

(** C6: when the input got as far as the split, a local part or a domain
    with a leading dot, a trailing dot or two dots in a row makes the
    result invalid; so does an empty local part or an empty domain
    label. *)
Theorem empty_segment_rejected (s local domain : pystr) :
  splits_into s local domain ->
  bad_dots local \/ bad_dots domain
  \/ local = [] \/ In [] (py_split dot domain) ->
  exists reason, validate_email (VStr s) = Returns (false, reason).
Proof.
  intros Hsplit Hbad. apply not_valid_invalid. intros m H.
  rewrite (validate_email_split Hsplit) in H.
  apply check_parts_true_inv in H.
  destruct H as (Hne & _ & Hl & _ & H).
  apply check_domain_true_inv in H.
  destruct H as (_ & Hd & _ & Hlabels & _).
  destruct Hbad as [Hb|[Hb|[Hb|Hb]]]; try contradiction.
  exact (check_labels_empty_label _ Hb Hlabels).
Qed.

(** C7: a string with one [@] whose domain has no dot is invalid. *)
Theorem dotless_domain_rejected (s local domain : pystr) :
  py_count at_sign (py_strip s) = 1%nat ->
  py_rsplit1 at_sign (py_strip s) = [local; domain] ->
  ~ In dot domain ->
  exists reason, validate_email (VStr s) = Returns (false, reason).
Proof.
  intros _ Hsplit Hdot. apply not_valid_invalid. intros m H.
  apply (valid_parts _ Hsplit) in H.
  apply check_parts_true_inv in H. destruct H as (_ & _ & _ & _ & H).
  apply check_domain_true_inv in H. destruct H as (_ & _ & Hlen & _).
  apply py_count_zero_not_in in Hdot.
  rewrite (py_split_no_sep _ _ Hdot) in Hlen. simpl in Hlen. lia.
Qed.

(** C8: a string with one [@] whose final domain label has a digit in it,
    or is one character long, is invalid; a label before the last one may
    be one character long and may have digits. *)
Theorem bad_tld_rejected :
  (forall s local domain tld : pystr,
      py_count at_sign (py_strip s) = 1%nat ->
      py_rsplit1 at_sign (py_strip s) = [local; domain] ->
      py_last (py_split dot domain) = Some tld ->
      existsb is_digit tld = true \/ List.length tld = 1%nat ->
      exists reason, validate_email (VStr s) = Returns (false, reason))
  /\ validate_email (VStr (lit "user@x.a1b2.com")) = Returns (true, msg_ok).
Proof.
  split; [|vm_compute; reflexivity].
  intros s local domain tld _ Hsplit Htld Hbad.
  apply not_valid_invalid. intros m H.
  apply (valid_parts _ Hsplit) in H.
  apply check_parts_true_inv in H. destruct H as (_ & _ & _ & _ & H).
  apply check_domain_true_inv in H.
  destruct H as (_ & _ & _ & _ & tld' & Hlast & Hmatch).
  rewrite Htld in Hlast. injection Hlast as <-.
  rewrite (tld_rejects _ Hbad) in Hmatch. discriminate Hmatch.
Qed.

(** When the split is reached with a non-empty local part, the domain
    has at most 252 characters. *)
Lemma domain_length_bound (s local domain : pystr) :
  splits_into s local domain -> local <> [] ->
  (List.length domain <= 252)%nat.
Proof.
  intros (_ & Hlen & _ & Hsplit) Hne.
  apply py_rsplit1_inv in Hsplit. destruct Hsplit as [Hs _].
  rewrite Hs, length_app in Hlen. simpl in Hlen.
  destruct local; [congruence | simpl in Hlen; lia].
Qed.

(** C9: no call returns the domain-too-long reason; where that check is
    reached the domain has at most 252 characters, so its test
    [len(domain) > 255] is false. *)
Theorem domain_too_long_unreachable :
  (forall email : value,
      validate_email email <> Returns (false, msg_domain_too_long))
  /\ (forall s local domain : pystr,
         splits_into s local domain -> local <> [] ->
         (List.length domain <= 252)%nat
         /\ (255 <? List.length domain)%nat = false).
Proof.
  split.
  - intros email H.
    destruct (validate_email_shape email) as [H'|(m & H' & Hm)];
      rewrite H' in H; [discriminate H|].
    injection H as ->.
    exact (failure_reason_not_domain_too_long Hm eq_refl).
  - intros s local domain Hsplit Hne.
    pose proof (domain_length_bound Hsplit Hne) as Hlen.
    split; [exact Hlen | apply Nat.ltb_ge; lia].
Qed.

(** C10: in every result the flag is [True] exactly when the reason is
    ["OK"]. *)
Theorem valid_iff_ok (email : value) (valid : bool) (reason : pystr) :
  validate_email email = Returns (valid, reason) ->
  (valid = true <-> reason = msg_ok).
Proof.
  intros H.
  destruct (validate_email_shape email) as [H'|(m & H' & Hm)];
    rewrite H' in H; injection H as <- <-.
  - tauto.
  - split; [discriminate|].
    intros E. exfalso. exact (failure_reason_not_ok Hm E).
Qed.

(** ** Further properties *)

Lemma failure_reason_not_label_empty m :
  failure_reason m -> m <> msg_label_empty.
Proof.
  intros Hm E. destruct Hm;
    unfold msg_bad_char, msg_label_too_long, msg_label_invalid, msg_tld in E;
    try (vm_compute in E; discriminate E);
    match type of E with
    | lit ?p ++ ?x = _ => generalize dependent x; intros x E
    end; vm_compute in E; discriminate E.
Qed.

Lemma check_labels_None labels :
  check_labels labels = None ->
  forall label, In label labels ->
    label <> [] /\ (List.length label <= 63)%nat
    /\ re_match _label_re label = true.
Proof.
  induction labels as [|l rest IH]; simpl; [intros _ label []|].
  destruct (is_empty l) eqn:He; [discriminate|].
  destruct (Nat.ltb_spec 63 (List.length l)) as [|Hlen]; [discriminate|].
  destruct (re_match _label_re l) eqn:Hm; cbn [negb]; [|discriminate].
  intros H label [<-|Hin]; [|auto].
  apply is_empty_false in He. auto.
Qed.

(** The matcher decides the language of the pattern. *)
Theorem accepts_iff_lang (r : regex) (s : pystr) :
  accepts r s = true <-> lang r s.
Proof. split; [apply accepts_sound | apply accepts_complete]. Qed.

(** X1: the empty-label reason is never returned: by the time the label loop
    runs, the dot checks on the domain have excluded an empty label. *)
Theorem label_empty_unreachable (email : value) :
  validate_email email <> Returns (false, msg_label_empty).
Proof.
  intros H.
  destruct (validate_email_shape email) as [H'|(m & H' & Hm)];
    rewrite H' in H; [discriminate H|].
  injection H as ->.
  exact (failure_reason_not_label_empty Hm eq_refl).
Qed.

(** X2: a [True] result implies every rule of the module's docstring: the
    stripped text is [local @ domain] with no further [@] in the domain,
    within the length limits, the local part well-dotted and made of
    allowed characters, the domain of at least two labels that each pass
    the label checks, and the last label passing the top-level-domain
    pattern. *)
Theorem valid_address_structure (s m : pystr) :
  validate_email (VStr s) = Returns (true, m) ->
  exists local domain,
    py_strip s = local ++ at_sign :: domain
    /\ (List.length (py_strip s) <= 254)%nat
    /\ local <> [] /\ (List.length local <= 64)%nat
    /\ ~ bad_dots local /\ forallb allowed local = true
    /\ ~ In at_sign domain /\ ~ bad_dots domain
    /\ (2 <= List.length (py_split dot domain))%nat
    /\ (forall label, In label (py_split dot domain) ->
          label <> [] /\ (List.length label <= 63)%nat
          /\ re_match _label_re label = true)
    /\ exists tld, py_last (py_split dot domain) = Some tld
                   /\ re_match _tld_re tld = true.
Proof.
  intros H. apply validate_email_true_inv in H.
  destruct H as (local & domain & (_ & Hlen & _ & Hsplit) & H).
  apply py_rsplit1_inv in Hsplit. destruct Hsplit as [Hs Hd].
  apply check_parts_true_inv in H.
  destruct H as (Hne & Hl & Hdots & Hchars & H).
  apply check_domain_true_inv in H.
  destruct H as (_ & Hddots & Hlabels & Hloop & Htld).
  exists local, domain.
  repeat (split; [assumption|]).
  split; [apply py_count_zero_not_in; assumption|].
  repeat (split; [assumption|]).
  split; [apply check_labels_None; assumption | exact Htld].
Qed.

(** X3: the assertions of [test_email_validator.py], with the reason each
    invalid address gets. *)
Theorem test_email_validator :
  let run := validate_literal in
  run "alice@example.com"%string = Returns (true, lit "OK")
  /\ run "user.name+tag+sorting@example.co.uk"%string = Returns (true, lit "OK")
  /\ run "a@b@c.com"%string = Returns (false, msg_at_count)
  /\ run ".abc@example.com"%string = Returns (false, msg_local_dot_ends)
  /\ run "abc.@example.com"%string = Returns (false, msg_local_dot_ends)
  /\ run "a..b@example.com"%string = Returns (false, msg_local_dot_dot)
  /\ run "a b@example.com"%string
     = Returns (false, lit "Invalid character in local part: ' '")
  /\ run "name<>@example.com"%string
     = Returns (false, lit "Invalid character in local part: '<'")
  /\ run "user@-example.com"%string
     = Returns (false, msg_label_invalid (lit "-example"))
  /\ run "user@example..com"%string = Returns (false, msg_domain_dot_dot)
  /\ run "user@example"%string = Returns (false, msg_no_tld_dot)
  /\ run "user@example.c"%string = Returns (false, msg_tld (lit "c"))
  /\ run "user@example.123"%string = Returns (false, msg_tld (lit "123")).
Proof. cbv zeta. repeat split; vm_compute; reflexivity. Qed.

(** X4: a domain label that ends in a newline passes the label pattern,
    because [$] also holds just before a final newline: the address
    [user@exa\n.com] is valid. *)
Theorem newline_label_accepted :
  re_match _label_re (lit "exa" ++ [10]) = true
  /\ validate_email (VStr (lit "user@exa" ++ [10] ++ lit ".com"))
     = Returns (true, msg_ok).
Proof. split; vm_compute; reflexivity. Qed.

(** ** The two patterns and the docstring's rules *)

Lemma pow_class_intro p s :
  forallb p s = true -> pow (lang (Class p)) (List.length s) s.
Proof.
  induction s as [|c s IH]; simpl; [reflexivity|].
  rewrite andb_true_iff. intros [Hc Hs].
  exists [c], s. split; [reflexivity|]. split; [exists c|]; auto.
Qed.

Lemma accepts_rep_class_iff p lo hi s :
  accepts (Rep lo hi (Class p)) s = true
  <-> (lo <= List.length s <= hi)%nat /\ forallb p s = true.
Proof.
  split; [apply accepts_rep_class|].
  intros [Hlen Hall]. apply accepts_complete.
  exists (List.length s). split; [exact Hlen | apply pow_class_intro, Hall].
Qed.

Lemma alnum_is_alnum_hyphen c : is_alnum c = true -> is_alnum_hyphen c = true.
Proof. unfold is_alnum_hyphen. intros ->. reflexivity. Qed.

(** The words of the label pattern: one letter or digit, or a letter or
    digit, up to 61 letters, digits or hyphens, and a letter or digit. *)
Lemma label_lang l :
  lang _label_re l <->
  (exists c, l = [c] /\ is_alnum c = true)
  \/ (exists c m d,
        l = c :: m ++ [d] /\ is_alnum c = true
        /\ (List.length m <= 61)%nat /\ forallb is_alnum_hyphen m = true
        /\ is_alnum d = true).
Proof.
  unfold _label_re. simpl. split.
  - intros (s1 & s2 & -> & (c & -> & Hc) & k & Hk & Hpow).
    destruct k as [|[|k]]; [| |lia]; simpl in Hpow.
    + subst s2. left. exists c. auto.
    + destruct Hpow as (t1 & t2 & -> & Ht1 & ->).
      destruct Ht1 as (m & e & -> & (j & Hj & Hm) & d & -> & Hd).
      apply pow_class in Hm. destruct Hm as [<- Hall].
      right. exists c, m, d. rewrite app_nil_r.
      repeat split; auto. lia.
  - intros [(c & -> & Hc)|(c & m & d & -> & Hc & Hlen & Hall & Hd)].
    + exists [c], []. split; [reflexivity|]. split; [exists c; auto|].
      exists 0%nat. split; [lia | reflexivity].
    + exists [c], (m ++ [d]). split; [reflexivity|]. split; [exists c; auto|].
      exists 1%nat. split; [lia|].
      exists (m ++ [d]), []. split; [symmetry; apply app_nil_r|].
      split; [|reflexivity].
      exists m, [d]. split; [reflexivity|]. split; [|exists d; auto].
      exists (List.length m). split; [lia | apply pow_class_intro, Hall].
Qed.

Lemma label_rule_shape l :
  label_rule l = true <->
  (exists c, l = [c] /\ is_alnum c = true)
  \/ (exists c m d,
        l = c :: m ++ [d] /\ is_alnum c = true
        /\ (List.length m <= 61)%nat /\ forallb is_alnum_hyphen m = true
        /\ is_alnum d = true).
Proof.
  unfold label_rule.
  rewrite !andb_true_iff, !Nat.leb_le. split.
  - intros ((((Hlo & Hhi) & Hhd) & Hlast) & Hall).
    destruct l as [|c t]; [simpl in Hlo; lia|].
    destruct (exists_last (l := c :: t)) as (pre & d & Hpre); [discriminate|].
    destruct pre as [|c' m]; simpl in Hpre.
    + injection Hpre as -> ->. left. exists d. auto.
    + injection Hpre as <- ->. right. exists c, m, d.
      rewrite app_comm_cons, last_last in Hlast.
      simpl in Hall. rewrite andb_true_iff, forallb_app in Hall.
      rewrite andb_true_iff in Hall. destruct Hall as (_ & Hm & _).
      simpl in Hhi. rewrite length_app in Hhi. simpl in Hhi.
      repeat split; auto. lia.
  - intros [(c & -> & Hc)|(c & m & d & -> & Hc & Hlen & Hall & Hd)].
    + simpl. rewrite Hc, (alnum_is_alnum_hyphen _ Hc).
      repeat split; auto; lia.
    + rewrite app_comm_cons, last_last. simpl hd. simpl List.length.
      rewrite length_app. simpl List.length.
      simpl forallb. rewrite forallb_app. simpl forallb.
      rewrite Hc, Hd, Hall, (alnum_is_alnum_hyphen _ Hc),
        (alnum_is_alnum_hyphen _ Hd).
      repeat split; auto; lia.
Qed.

(** A final newline or not, as [$] allows. *)
Lemma re_match_cases r s :
  re_match r s = true <->
  accepts r s = true \/ exists body, s = body ++ [10] /\ accepts r body = true.
Proof.
  unfold re_match. rewrite orb_true_iff. split.
  - intros [H|H]; [left; exact H|]. right.
    destruct (rev s) as [|c t] eqn:Hr; [discriminate|].
    rewrite andb_true_iff, N.eqb_eq in H. destruct H as [-> H].
    exists (rev t). split; [apply rev_cons_inv; exact Hr | exact H].
  - intros [H|(body & -> & H)]; [left; exact H|]. right.
    rewrite rev_app_distr. simpl. rewrite rev_involutive, H. reflexivity.
Qed.

(** X5: the label pattern is the docstring's label rule, except that it
    also passes a label that obeys the rule followed by one newline. *)
Theorem label_re_spec (label : pystr) :
  re_match _label_re label = true <->
  label_rule label = true
  \/ exists body, label = body ++ [10] /\ label_rule body = true.
Proof.
  rewrite re_match_cases, !accepts_iff_lang, label_lang, <- label_rule_shape.
  split; (intros [H|(body & Hb & H)]; [left; exact H|right]);
    exists body; split; try exact Hb.
  - apply label_rule_shape, label_lang, accepts_iff_lang. exact H.
  - apply accepts_iff_lang, label_lang, label_rule_shape. exact H.
Qed.

(** X6: the top-level-domain pattern is the docstring's rule (2 to 63
    letters), except that it also passes such a text followed by one
    newline. *)
Theorem tld_re_spec (tld : pystr) :
  re_match _tld_re tld = true <->
  tld_rule tld = true
  \/ exists body, tld = body ++ [10] /\ tld_rule body = true.
Proof.
  assert (Hrule : forall t, accepts _tld_re t = true <-> tld_rule t = true).
  { intros t. unfold _tld_re, tld_rule. rewrite accepts_rep_class_iff.
    rewrite !andb_true_iff, !Nat.leb_le. split.
    - intros [[H1 H2] H3]. auto.
    - intros [[H1 H2] H3]. auto. }
  rewrite re_match_cases, Hrule.
  split; (intros [H|(body & Hb & H)]; [left; exact H|right]);
    exists body; split; try exact Hb; apply Hrule; exact H.
Qed.

(** ** Valid addresses, exactly *)

Lemma rcut_absent c s : py_count c s = 0%nat -> rcut c s = None.
Proof.
  induction s as [|x s IH]; simpl; [reflexivity|].
  destruct (x =? c); [discriminate|].
  intros H. rewrite (IH H). reflexivity.
Qed.

(** With no separator to the right of it, the cut is at that separator. *)
Lemma rcut_app c l d :
  py_count c d = 0%nat -> rcut c (l ++ c :: d) = Some (l, d).
Proof.
  intros Hd. induction l as [|x l IH]; simpl.
  - rewrite (rcut_absent _ _ Hd), N.eqb_refl. reflexivity.
  - rewrite IH. reflexivity.
Qed.

Lemma allowed_no_at local :
  forallb allowed local = true -> py_count at_sign local = 0%nat.
Proof.
  intros Hall. apply py_count_zero_not_in. intros Hin.
  rewrite forallb_forall in Hall. specialize (Hall _ Hin).
  vm_compute in Hall. discriminate Hall.
Qed.

Lemma check_labels_pass labels :
  (forall label, In label labels ->
     label <> [] /\ (List.length label <= 63)%nat
     /\ re_match _label_re label = true) ->
  check_labels labels = None.
Proof.
  induction labels as [|l rest IH]; simpl; [reflexivity|].
  intros H. destruct (H l (or_introl eq_refl)) as (Hne & Hlen & Hm).
  destruct l as [|c l]; [congruence|]. simpl is_empty.
  destruct (Nat.ltb_spec 63 (List.length (c :: l))) as [|_]; [lia|].
  rewrite Hm. simpl. apply IH. intros label Hin. apply H. right. exact Hin.
Qed.

Lemma not_bad_dots x :
  ~ bad_dots x ->
  py_startswith [dot] x || py_endswith [dot] x = false
  /\ py_contains [dot; dot] x = false.
Proof.
  unfold bad_dots. intros H.
  destruct (py_startswith [dot] x); [exfalso; apply H; auto|].
  destruct (py_endswith [dot] x); [exfalso; apply H; auto|].
  destruct (py_contains [dot; dot] x); [exfalso; apply H; auto|].
  auto.
Qed.

Lemma well_formed_valid email local domain :
  well_formed email local domain ->
  py_count at_sign email = 1%nat
  /\ py_rsplit1 at_sign email = [local; domain]
  /\ check_parts local domain = Returns (true, msg_ok).
Proof.
  intros (He & Hlen & Hne & Hl & Hldots & Hchars & Hat & Hddots & Hn
          & Hlabels & tld & Hlast & Htld).
  apply py_count_zero_not_in in Hat.
  split; [|split].
  - rewrite He, py_count_app, (allowed_no_at _ Hchars).
    change (py_count at_sign (at_sign :: domain))
      with (if at_sign =? at_sign then S (py_count at_sign domain)
            else py_count at_sign domain).
    rewrite N.eqb_refl, Hat. reflexivity.
  - unfold py_rsplit1. rewrite He, (rcut_app _ local _ Hat). reflexivity.
  - unfold check_parts.
    destruct local as [|c local]; [congruence|]. simpl is_empty.
    destruct (Nat.ltb_spec 64 (List.length (c :: local))) as [|_]; [lia|].
    destruct (not_bad_dots Hldots) as [-> ->].
    apply check_local_chars_None in Hchars. rewrite Hchars.
    unfold check_domain.
    destruct domain as [|d domain]; [simpl in Hn; lia|]. simpl is_empty.
    assert (Hdlen : (List.length (d :: domain) <= 255)%nat).
    { rewrite He, length_app in Hlen. simpl in *. lia. }
    destruct (Nat.ltb_spec 255 (List.length (d :: domain))) as [|_]; [lia|].
    destruct (not_bad_dots Hddots) as [-> ->]. cbv zeta.
    destruct (Nat.ltb_spec (List.length (py_split dot (d :: domain))) 2)
      as [|_]; [lia|].
    rewrite (check_labels_pass _ Hlabels), Hlast, Htld. reflexivity.
Qed.

(** X7: a string is valid exactly when its stripped text is
    [local @ domain] and passes every check: at most 254 characters; a
    local part of 1 to 64 allowed characters with no leading, trailing or
    doubled dot; a domain with no [@] and no such dot, of at least two
    labels that are not empty, have at most 63 characters and match the
    label pattern, the last one matching the top-level-domain pattern. *)
Theorem valid_iff_well_formed (s : pystr) :
  validate_email (VStr s) = Returns (true, msg_ok)
  <-> exists local domain, well_formed (py_strip s) local domain.
Proof.
  split.
  - intros H. apply valid_address_structure in H.
    destruct H as (local & domain & H). exists local, domain. exact H.
  - intros (local & domain & H).
    assert (Hwf := H).
    destruct H as (He & Hlen & Hne & _).
    apply well_formed_valid in Hwf. destruct Hwf as (Hone & Hsplit & Hparts).
    rewrite <- Hparts. apply validate_email_split.
    unfold splits_into. cbv zeta. repeat split; auto.
    rewrite He. destruct local; discriminate.
Qed.

(** ** Whitespace around the input *)

Lemma py_lstrip_all_ws ws : forallb py_isspace ws = true -> py_lstrip ws = [].
Proof.
  induction ws as [|c ws IH]; simpl; [reflexivity|].
  rewrite andb_true_iff. intros [-> H]. exact (IH H).
Qed.

Lemma py_lstrip_ws_app ws s :
  forallb py_isspace ws = true -> py_lstrip (ws ++ s) = py_lstrip s.
Proof.
  induction ws as [|c ws IH]; simpl; [reflexivity|].
  rewrite andb_true_iff. intros [-> H]. exact (IH H).
Qed.

Lemma py_lstrip_app_ws s ws :
  forallb py_isspace ws = true ->
  py_lstrip (s ++ ws) = if is_empty (py_lstrip s) then [] else py_lstrip s ++ ws.
Proof.
  intros Hws. induction s as [|c s IH]; simpl.
  - apply py_lstrip_all_ws. exact Hws.
  - destruct (py_isspace c); [exact IH | reflexivity].
Qed.

Lemma forallb_rev (A : Type) (p : A -> bool) xs :
  forallb p xs = true -> forallb p (rev xs) = true.
Proof.
  rewrite !forallb_forall. intros H x Hin. apply H, in_rev. exact Hin.
Qed.

Lemma py_rstrip_app_ws s ws :
  forallb py_isspace ws = true -> py_rstrip (s ++ ws) = py_rstrip s.
Proof.
  intros Hws. unfold py_rstrip.
  rewrite rev_app_distr, py_lstrip_ws_app by (apply forallb_rev; exact Hws).
  reflexivity.
Qed.

(** Whitespace added at either end is stripped again. *)
Lemma py_strip_pad ws1 s ws2 :
  forallb py_isspace ws1 = true -> forallb py_isspace ws2 = true ->
  py_strip (ws1 ++ s ++ ws2) = py_strip s.
Proof.
  intros H1 H2. unfold py_strip.
  rewrite py_lstrip_ws_app, py_lstrip_app_ws by assumption.
  destruct (py_lstrip s) as [|c t] eqn:Hs; simpl is_empty; [reflexivity|].
  apply py_rstrip_app_ws. exact H2.
Qed.

Lemma py_lstrip_decompose s :
  exists ws, s = ws ++ py_lstrip s /\ forallb py_isspace ws = true.
Proof.
  induction s as [|c s (ws & Hs & Hws)]; simpl; [exists []; auto|].
  destruct (py_isspace c) eqn:Hc; [|exists []; auto].
  exists (c :: ws). simpl. rewrite Hc, Hws, <- Hs. auto.
Qed.

Lemma py_rstrip_decompose s :
  exists ws, s = py_rstrip s ++ ws /\ forallb py_isspace ws = true.
Proof.
  unfold py_rstrip.
  destruct (py_lstrip_decompose (rev s)) as (ws & Hs & Hws).
  exists (rev ws). split; [|apply forallb_rev; exact Hws].
  rewrite <- rev_app_distr, <- Hs, rev_involutive. reflexivity.
Qed.

(** What [strip] removes is whitespace at the two ends. *)
Lemma py_strip_decompose s :
  exists ws1 ws2,
    s = ws1 ++ py_strip s ++ ws2
    /\ forallb py_isspace ws1 = true /\ forallb py_isspace ws2 = true.
Proof.
  destruct (py_lstrip_decompose s) as (ws1 & Hs & H1).
  destruct (py_rstrip_decompose (py_lstrip s)) as (ws2 & Ht & H2).
  exists ws1, ws2. unfold py_strip. rewrite <- Ht, <- Hs. auto.
Qed.

(** X8: whitespace before and after the address does not change the
    result, flag and reason alike; in particular the result for a string
    is the result for its stripped text. *)
Theorem surrounding_whitespace_ignored (s : pystr) :
  (forall ws1 ws2,
      forallb py_isspace ws1 = true -> forallb py_isspace ws2 = true ->
      validate_email (VStr (ws1 ++ s ++ ws2)) = validate_email (VStr s))
  /\ validate_email (VStr (py_strip s)) = validate_email (VStr s).
Proof.
  assert (Hpad : forall ws1 ws2 t,
             forallb py_isspace ws1 = true -> forallb py_isspace ws2 = true ->
             validate_email (VStr (ws1 ++ t ++ ws2)) = validate_email (VStr t)).
  { intros ws1 ws2 t H1 H2. unfold validate_email.
    rewrite (@py_strip_pad ws1 t ws2 H1 H2). reflexivity. }
  split; [intros ws1 ws2; apply Hpad|].
  destruct (py_strip_decompose s) as (ws1 & ws2 & Hs & H1 & H2).
  rewrite Hs at 2. symmetry. apply Hpad; assumption.
Qed.

(** ** The characters of a valid address *)

(** A character of the text is the separator or lies in a piece. *)
Lemma in_py_split sep c s :
  In c s -> c = sep \/ exists piece, In piece (py_split sep s) /\ In c piece.
Proof.
  induction s as [|x t IH]; simpl; [intros []|].
  intros Hin. destruct (N.eqb_spec x sep) as [->|Hx].
  - destruct Hin as [<-|Hin]; [left; reflexivity|].
    destruct (IH Hin) as [->|(piece & Hp & Hc)]; [left; reflexivity|].
    right. exists piece. split; [right; exact Hp | exact Hc].
  - destruct (py_split sep t) as [|h r] eqn:Hsplit.
    { exfalso. exact (py_split_not_nil sep t Hsplit). }
    destruct Hin as [<-|Hin].
    { right. exists (x :: h). split; left; reflexivity. }
    destruct (IH Hin) as [->|(piece & [<-|Hp] & Hc)].
    + left. reflexivity.
    + right. exists (x :: h). split; [left; reflexivity | right; exact Hc].
    + right. exists piece. split; [right; exact Hp | exact Hc].
Qed.

Lemma label_rule_chars l c :
  label_rule l = true -> In c l -> is_alnum_hyphen c = true.
Proof.
  unfold label_rule. rewrite !andb_true_iff. intros (_ & Hall) Hin.
  rewrite forallb_forall in Hall. exact (Hall _ Hin).
Qed.

(** A label that passes the pattern is made of letters, digits and
    hyphens, and possibly a final newline. *)
Lemma label_match_chars l c :
  re_match _label_re l = true -> In c l ->
  is_alnum_hyphen c = true \/ c = 10.
Proof.
  intros Hm Hin. apply label_re_spec in Hm.
  destruct Hm as [H|(body & -> & H)].
  - left. exact (label_rule_chars _ _ H Hin).
  - apply in_app_or in Hin. destruct Hin as [Hin|[<-|[]]].
    + left. exact (label_rule_chars _ _ H Hin).
    + right. reflexivity.
Qed.

Lemma allowed_ascii c : allowed c = true -> c < 128.
Proof.
  unfold allowed, in_set. intros H.
  apply existsb_exists in H. destruct H as (x & Hin & Hx).
  apply N.eqb_eq in Hx. subst x.
  assert (Hall : forallb (fun x => x <? 128) _LOCAL_ALLOWED = true)
    by (vm_compute; reflexivity).
  rewrite forallb_forall in Hall. apply N.ltb_lt, Hall, Hin.
Qed.

Lemma alnum_hyphen_allowed c : is_alnum_hyphen c = true -> allowed c = true.
Proof.
  intros H.
  assert (Hlt : c < 128).
  { revert H. unfold is_alnum_hyphen, is_alnum, is_alpha, is_digit, in_range, ord.
    simpl N_of_ascii.
    rewrite !orb_true_iff, !andb_true_iff, !N.leb_le, N.eqb_eq. lia. }
  assert (Hall : forallb (fun n => implb (is_alnum_hyphen (N.of_nat n))
                                         (allowed (N.of_nat n)))
                         (seq 0 128) = true)
    by (vm_compute; reflexivity).
  rewrite forallb_forall in Hall.
  specialize (Hall (N.to_nat c)). rewrite N2Nat.id, H in Hall.
  apply Hall. apply in_seq. lia.
Qed.

(** X9: every character of the stripped text of a valid address is one
    of [_LOCAL_ALLOWED], the [@], or a newline; all of them are ASCII. *)
Theorem valid_characters (s m : pystr) (c : char) :
  validate_email (VStr s) = Returns (true, m) ->
  In c (py_strip s) ->
  (allowed c = true \/ c = at_sign \/ c = 10) /\ c < 128.
Proof.
  intros H Hin. apply valid_address_structure in H.
  destruct H as (local & domain & He & _ & _ & _ & _ & Hchars & _ & _ & _
                 & Hlabels & _).
  assert (Hc : allowed c = true \/ c = at_sign \/ c = 10).
  { rewrite He in Hin. apply in_app_or in Hin.
    destruct Hin as [Hin|[<-|Hin]].
    - left. rewrite forallb_forall in Hchars. exact (Hchars _ Hin).
    - right. left. reflexivity.
    - apply (in_py_split dot) in Hin.
      destruct Hin as [->|(label & Hl & Hcl)]; [left; reflexivity|].
      destruct (Hlabels _ Hl) as (_ & _ & Hm).
      destruct (label_match_chars _ _ Hm Hcl) as [Hah| ->].
      + left. apply alnum_hyphen_allowed. exact Hah.
      + right. right. reflexivity. }
  split; [exact Hc|].
  destruct Hc as [Hc|[->| ->]]; [apply allowed_ascii; exact Hc | |];
    reflexivity.
Qed.

(** ** The command line *)

Lemma report_cases em :
  exists valid reason,
    validate_email (VStr em) = Returns (valid, reason)
    /\ report em
       = if valid then lit "[VALID]   " ++ em
         else lit "[INVALID] " ++ em ++ lit "  -> " ++ reason.
Proof.
  unfold report.
  destruct (validate_email_shape (VStr em)) as [H|(m & H & _)]; rewrite H.
  - exists true, msg_ok. auto.
  - exists false, m. auto.
Qed.

(** The loop calls [print] with the report of each argument in turn,
    until a call raises or the arguments run out. *)
Lemma main_loop_run ems :
  forall out, exists k,
    (k <= List.length ems)%nat
    /\ fst (main_loop ems out) = out ++ firstn k (map report ems)
    /\ ((k = List.length ems /\ snd (main_loop ems out) = Finished)
        \/ exists text e,
             nth_error (map report ems) k = Some text
             /\ print_raises (out ++ firstn k (map report ems)) text = Some e
             /\ snd (main_loop ems out) = PrintRaised e).
Proof.
  induction ems as [|em rest IH]; intros out.
  - exists 0%nat. simpl. rewrite app_nil_r. auto.
  - cbn [main_loop].
    destruct (report_cases em) as (valid & reason & Hv & Hr). rewrite Hv.
    assert (Hbody :
              (if valid then
                 print_then (lit "[VALID]   " ++ em) out (main_loop rest)
               else
                 print_then (lit "[INVALID] " ++ em ++ lit "  -> " ++ reason)
                   out (main_loop rest))
              = print_then (report em) out (main_loop rest)).
    { rewrite Hr. destruct valid; reflexivity. }
    rewrite Hbody. unfold print_then.
    destruct (print_raises out (report em)) as [e|] eqn:Hp.
    + exists 0%nat. cbn [firstn map List.length fst snd nth_error].
      rewrite app_nil_r. split; [lia|]. split; [reflexivity|].
      right. exists (report em), e. auto.
    + destruct (IH (out ++ [report em])) as (k & Hk & Hfst & Hend).
      exists (S k). cbn [firstn map List.length nth_error].
      rewrite <- app_assoc in Hfst, Hend. simpl app in Hfst, Hend.
      split; [lia|]. split; [exact Hfst|].
      destruct Hend as [[-> Hf]|(text & e & Hn & Hp' & He)];
        [left; auto | right; exists text, e; auto].
Qed.

Lemma main_with_arguments argv :
  List.length argv <> 1%nat -> main argv = main_loop (tl argv) [].
Proof.
  intros H. unfold main.
  destruct (Nat.eqb_spec (List.length argv) 1) as [|_];
    [contradiction | reflexivity].
Qed.


(** X10: [main] ends with an uncaught exception only when a call of
    [print] raises, and then with that exception: [validate_email] never
    makes it fail.  [sys.exit] is called with code 0 only, and only for an
    argument list of one entry; when no call of [print] raises, [main]
    exits with code 0 (one entry) or returns (otherwise), whatever the
    validity of the arguments. *)
Theorem main_ending (argv : list pystr) :
  (forall e, snd (main argv) <> ValidatorRaised e)
  /\ (forall code, snd (main argv) = SystemExit code ->
        code = 0%Z /\ List.length argv = 1%nat)
  /\ (snd (main argv) = Finished -> List.length argv <> 1%nat)
  /\ (forall e, snd (main argv) = PrintRaised e ->
        exists text, print_raises (fst (main argv)) text = Some e)
  /\ ((forall out text, print_raises out text = None) ->
      snd (main argv)
      = if (List.length argv =? 1)%nat then SystemExit 0 else Finished).
Proof.
  unfold main, print_then.
  destruct (Nat.eqb_spec (List.length argv) 1) as [Hone|Hmany].
  - destruct (print_raises [] usage_line1) as [e1|] eqn:H1;
      [|destruct (print_raises ([] ++ [usage_line1]) usage_line2)
          as [e2|] eqn:H2];
      cbn [fst snd]; repeat split; try discriminate; try congruence;
      try (intros e E; injection E as <-; eauto);
      try (intros code E; injection E as <-; reflexivity);
      intros Hnever; rewrite Hnever in *; discriminate.
  - destruct (main_loop_run (tl argv) []) as (k & _ & Hfst & Hend).
    simpl app in Hfst, Hend.
    destruct Hend as [[_ Hf]|(text & e & _ & Hp & He)].
    + rewrite Hf. repeat split; try discriminate; auto.
    + rewrite He. repeat split; try discriminate; auto.
      * intros e' E. injection E as <-. exists text.
        rewrite Hfst. exact Hp.
      * intros Hnever. rewrite Hnever in Hp. discriminate Hp.
Qed.

(** X11: with arguments, the calls of [print] that return are the
    reports of the first [k] arguments, in the order of the arguments:
    ["[VALID]   " + em] when the validator returns [True] for [em], and
    ["[INVALID] " + em + "  -> " + reason] with the validator's reason
    otherwise, the argument printed as given, not stripped.  Either every
    argument is reported and [main] returns, or the call for argument [k]
    raises, nothing after it is printed and [main] ends with that
    exception.  When no call raises, every argument is reported. *)
Theorem main_reports_each_argument (argv : list pystr) :
  List.length argv <> 1%nat ->
  (forall em, exists valid reason,
      validate_email (VStr em) = Returns (valid, reason)
      /\ report em
         = if valid then lit "[VALID]   " ++ em
           else lit "[INVALID] " ++ em ++ lit "  -> " ++ reason)
  /\ (exists k,
        (k <= List.length (tl argv))%nat
        /\ fst (main argv) = firstn k (map report (tl argv))
        /\ ((k = List.length (tl argv) /\ snd (main argv) = Finished)
            \/ exists text e,
                 nth_error (map report (tl argv)) k = Some text
                 /\ print_raises (fst (main argv)) text = Some e
                 /\ snd (main argv) = PrintRaised e))
  /\ ((forall out text, print_raises out text = None) ->
      main argv = (map report (tl argv), Finished)).
Proof.
  intros H. rewrite (main_with_arguments _ H).
  split; [exact report_cases|].
  destruct (main_loop_run (tl argv) []) as (k & Hk & Hfst & Hend).
  simpl app in Hfst, Hend. split.
  - exists k. split; [exact Hk|]. split; [exact Hfst|].
    destruct Hend as [Hend|(text & e & Hn & Hp & He)]; [left; exact Hend|].
    right. exists text, e. rewrite Hfst. auto.
  - intros Hnever.
    destruct Hend as [[-> Hf]|(text & e & _ & Hp & _)].
    + rewrite <- (length_map report), firstn_all in Hfst.
      rewrite (surjective_pairing (main_loop (tl argv) [])), Hfst, Hf.
      reflexivity.
    + rewrite Hnever in Hp. discriminate Hp.
Qed.


(** ** The length of a valid address *)

(** The pieces and the separators between them make up the text. *)
Lemma py_split_length sep s :
  (List.length s + 1
   = list_sum (map (fun p => S (List.length p)) (py_split sep s)))%nat.
Proof.
  induction s as [|x t IH]; simpl; [reflexivity|].
  destruct (x =? sep); simpl; [lia|].
  destruct (py_split sep t) as [|h r]; simpl in *; lia.
Qed.

Lemma py_last_In (A : Type) (xs : list A) x : py_last xs = Some x -> In x xs.
Proof.
  induction xs as [|y ys IH]; simpl; [discriminate|].
  destruct ys as [|z zs]; [intros H; injection H as ->; left; reflexivity|].
  intros H. right. exact (IH H).
Qed.

Lemma list_sum_In (A : Type) (f : A -> nat) xs x :
  In x xs -> (f x <= list_sum (map f xs))%nat.
Proof.
  induction xs as [|y ys IH]; simpl; [intros []|].
  intros [->|Hin]; [lia|]. specialize (IH Hin). lia.
Qed.

Lemma tld_match_length tld :
  re_match _tld_re tld = true -> (2 <= List.length tld)%nat.
Proof.
  intros H. apply tld_match_inv in H.
  destruct H as (body & [->| ->] & Hlen & _); [lia|].
  rewrite length_app. lia.
Qed.

(** X13: the stripped text of a valid address has between 6 and 254
    characters; [a@b.cd] shows that 6 is reached. *)
Theorem valid_length_bounds :
  (forall s m : pystr,
      validate_email (VStr s) = Returns (true, m) ->
      (6 <= List.length (py_strip s) <= 254)%nat)
  /\ validate_email (VStr (lit "a@b.cd")) = Returns (true, msg_ok).
Proof.
  split; [|vm_compute; reflexivity].
  intros s m H. apply valid_address_structure in H.
  destruct H as (local & domain & He & Hlen & Hne & _ & _ & _ & _ & _ & Hn
                 & Hlabels & tld & Hlast & Htld).
  split; [|exact Hlen].
  rewrite He, length_app. simpl.
  pose proof (py_split_length dot domain) as Hsum.
  apply tld_match_length in Htld.
  destruct (py_split dot domain) as [|a [|b r]]; simpl in Hn; try lia.
  destruct (Hlabels a (or_introl eq_refl)) as (Ha & _).
  assert (Hin : In tld (b :: r)) by (apply py_last_In; exact Hlast).
  apply (list_sum_In (fun p => S (List.length p))) in Hin.
  cbn [map list_sum] in Hsum, Hin.
  destruct local; [congruence|]. destruct a; [congruence|].
  simpl in *. lia.
Qed.

(** ** Malformed labels *)

Lemma label_rule_hd_last l :
  label_rule l = true ->
  l <> [] /\ is_alnum (hd 0 l) = true /\ is_alnum (last l 0) = true.
Proof.
  unfold label_rule. rewrite !andb_true_iff, Nat.leb_le.
  intros ((((Hlo & _) & Hhd) & Hlast) & _).
  repeat split; auto. destruct l; [simpl in Hlo; lia | discriminate].
Qed.

(** X14: a string whose domain has a label longer than 63 characters, a
    label that starts or ends with a hyphen, or a label with a character
    other than a letter, a digit, a hyphen or a newline, is invalid. *)
Theorem bad_label_rejected (s local domain label : pystr) :
  py_rsplit1 at_sign (py_strip s) = [local; domain] ->
  In label (py_split dot domain) ->
  (63 < List.length label)%nat
  \/ hd 0 label = ord "-" \/ last label 0 = ord "-"
  \/ (exists c, In c label /\ is_alnum_hyphen c = false /\ c <> 10) ->
  exists reason, validate_email (VStr s) = Returns (false, reason).
Proof.
  intros Hsplit Hin Hbad. apply not_valid_invalid. intros m H.
  apply (valid_parts _ Hsplit) in H.
  apply check_parts_true_inv in H. destruct H as (_ & _ & _ & _ & H).
  apply check_domain_true_inv in H. destruct H as (_ & _ & _ & Hloop & _).
  destruct (check_labels_None _ Hloop _ Hin) as (_ & Hlen & Hm).
  apply label_re_spec in Hm.
  destruct Hbad as [Hlong|[Hhd|[Hlast|(c & Hc & Hah & Hnl)]]].
  - lia.
  - destruct Hm as [Hr|(body & -> & Hr)];
      apply label_rule_hd_last in Hr; destruct Hr as (Hne & Hh & _).
    + rewrite Hhd in Hh. discriminate Hh.
    + destruct body as [|b body]; [exfalso; apply Hne; reflexivity|].
      simpl in Hhd, Hh.
      rewrite Hhd in Hh. discriminate Hh.
  - destruct Hm as [Hr|(body & -> & Hr)].
    + apply label_rule_hd_last in Hr. destruct Hr as (_ & _ & Hl).
      rewrite Hlast in Hl. discriminate Hl.
    + rewrite last_last in Hlast. discriminate Hlast.
  - destruct Hm as [Hr|(body & -> & Hr)].
    + rewrite (label_rule_chars _ _ Hr Hc) in Hah. discriminate Hah.
    + apply in_app_or in Hc. destruct Hc as [Hc|[E|[]]]; [|congruence].
      rewrite (label_rule_chars _ _ Hr Hc) in Hah. discriminate Hah.
Qed.

(** ** The last label of a valid address *)

Lemma py_lstrip_hd s c t : py_lstrip s = c :: t -> py_isspace c = false.
Proof.
  induction s as [|x s IH]; simpl; [discriminate|].
  destruct (py_isspace x) eqn:Hx; [exact IH|].
  intros H. injection H as <- _. exact Hx.
Qed.

(** The stripped text does not end in whitespace. *)
Lemma py_strip_last s t c : py_strip s = t ++ [c] -> py_isspace c = false.
Proof.
  unfold py_strip, py_rstrip. intros H.
  apply (f_equal (@rev char)) in H.
  rewrite rev_involutive, rev_app_distr in H. simpl in H.
  exact (py_lstrip_hd _ H).
Qed.

Lemma py_split_single sep s h : py_split sep s = [h] -> s = h.
Proof.
  revert h. induction s as [|x t IH]; simpl; intros h H.
  - injection H as <-. reflexivity.
  - destruct (x =? sep).
    + injection H as _ H. exfalso. exact (py_split_not_nil sep t H).
    + destruct (py_split sep t) as [|h' r] eqn:Hs.
      * exfalso. exact (py_split_not_nil sep t Hs).
      * injection H as <- ->. rewrite (IH h' eq_refl). reflexivity.
Qed.

(** The last piece of [split] is the end of the text. *)
Lemma py_split_last_suffix sep s tld :
  py_last (py_split sep s) = Some tld -> exists pre, s = pre ++ tld.
Proof.
  induction s as [|x t IH]; simpl.
  - intros H. injection H as <-. exists []. reflexivity.
  - destruct (py_split sep t) as [|h r] eqn:Hs.
    { exfalso. exact (py_split_not_nil sep t Hs). }
    destruct (x =? sep).
    + intros H. destruct (IH H) as (pre & ->).
      exists (x :: pre). reflexivity.
    + destruct r as [|h2 r].
      * intros H. injection H as <-.
        rewrite (py_split_single _ _ Hs). exists []. reflexivity.
      * intros H. destruct (IH H) as (pre & ->).
        exists (x :: pre). reflexivity.
Qed.

(** X15: the stripped text of a valid address ends with a dot followed
    by 2 to 63 letters and nothing else: it cannot end in a newline, so
    the newline that [$] tolerates is never there in the last label. *)
Theorem valid_tld_alphabetic (s m : pystr) :
  validate_email (VStr s) = Returns (true, m) ->
  exists pre tld,
    py_strip s = pre ++ dot :: tld /\ tld_rule tld = true.
Proof.
  intros H. apply valid_address_structure in H.
  destruct H as (local & domain & He & _ & _ & _ & _ & _ & _ & _ & Hn & _
                 & tld & Hlast & Htld).
  destruct (py_split_last_suffix _ _ Hlast) as (pre & Hd).
  assert (Hs : py_strip s = (local ++ at_sign :: pre) ++ tld).
  { rewrite He, Hd, <- app_assoc. reflexivity. }
  assert (Hrule : tld_rule tld = true).
  { apply tld_re_spec in Htld. destruct Htld as [Hr|(body & -> & _)];
      [exact Hr|].
    exfalso. rewrite app_assoc in Hs. apply py_strip_last in Hs.
    vm_compute in Hs. discriminate Hs. }
  cut (exists pre', pre = pre' ++ [dot]).
  { intros (pre' & ->). exists (local ++ at_sign :: pre'), tld.
    split; [|exact Hrule].
    rewrite Hs, <- !app_assoc. simpl. rewrite <- app_assoc. reflexivity. }
  - clear Hs He Htld Hrule.
    assert (Hpre : exists pre', pre = pre' ++ [dot]).
    { revert pre Hd Hn Hlast. clear.
      induction domain as [|x t IH]; simpl; intros pre Hd Hn Hlast;
        [simpl in Hn; lia|].
      destruct (py_split dot t) as [|h r] eqn:Hs.
      { exfalso. exact (py_split_not_nil dot t Hs). }
      destruct (N.eqb_spec x dot) as [->|Hx].
      - destruct r as [|h2 r].
        + simpl in Hlast. injection Hlast as <-.
          apply py_split_single in Hs. subst t.
          exists []. simpl.
          change (dot :: h) with ([dot] ++ h) in Hd.
          apply app_inv_tail in Hd. auto.
        + destruct pre as [|p pre'].
          * exfalso. simpl in Hd. subst tld.
            assert (Hl : py_last (h :: h2 :: r) = Some (dot :: t))
              by exact Hlast.
            rewrite <- Hs in Hl.
            destruct (py_split_last_suffix _ _ Hl) as (q & Hq).
            apply (f_equal (@List.length char)) in Hq.
            rewrite length_app in Hq. simpl in Hq. lia.
          * injection Hd as <- Hd.
            destruct (IH pre' Hd) as (q & ->);
              [simpl; lia | exact Hlast |].
            exists (dot :: q). reflexivity.
      - destruct r as [|h2 r]; [simpl in Hn; lia|].
        destruct pre as [|p pre'].
        + exfalso. simpl in Hd. subst tld.
          assert (Hl : py_last (h :: h2 :: r) = Some (x :: t))
            by exact Hlast.
          rewrite <- Hs in Hl.
          destruct (py_split_last_suffix _ _ Hl) as (q & Hq).
          apply (f_equal (@List.length char)) in Hq.
          rewrite length_app in Hq. simpl in Hq. lia.
        + injection Hd as <- Hd.
          destruct (IH pre' Hd) as (q & ->);
            [simpl; lia | exact Hlast |].
          exists (x :: q). reflexivity. }
    exact Hpre.
Qed.

End Validator.

(** ** Concrete runs *)

Lemma validate_email_total_witness :
  validate_email all_printable (VInt 42) = Returns (false, msg_not_string).
Proof.
  exact (proj2 (validate_email_total all_printable (VInt 42)) eq_refl).
Defined.

(** The empty string has no [@], and its reason is the empty-input one,
    not the [@]-count one. *)
Lemma at_count_reason_counterexample :
  py_count at_sign (lit "") <> 1%nat
  /\ validate_email all_printable (VStr (lit "")) = Returns (false, msg_empty)
  /\ validate_email all_printable (VStr (lit ""))
     <> Returns (false, msg_at_count).
Proof.
  split; [|split].
  - vm_compute. discriminate.
  - vm_compute. reflexivity.
  - vm_compute. discriminate.
Qed.

Lemma at_count_rejected_witness :
  py_count at_sign (lit "a@b@c.com") <> 1%nat
  /\ validate_email all_printable (VStr (lit "a@b@c.com"))
     = Returns (false, msg_at_count).
Proof.
  assert (H : py_count at_sign (lit "a@b@c.com") <> 1%nat)
    by (vm_compute; discriminate).
  split; [exact H|].
  exact (at_count_rejected all_printable (lit "a@b@c.com") H).
Defined.

Lemma too_long_rejected_witness :
  validate_email all_printable (VStr (lit " " ++ repeat at_sign 300))
  = Returns (false, msg_too_long).
Proof.
  apply too_long_rejected.
  - vm_compute. discriminate.
  - vm_compute. lia.
Defined.

Lemma splits_alice :
  splits_into (lit "alice@example.com") (lit "alice") (lit "example.com").
Proof.
  unfold splits_into. cbv zeta.
  split; [vm_compute; discriminate|].
  split; [vm_compute; lia|].
  split; vm_compute; reflexivity.
Defined.

Lemma splits_a_b :
  splits_into (lit "a b@example.com") (lit "a b") (lit "example.com").
Proof.
  unfold splits_into. cbv zeta.
  split; [vm_compute; discriminate|].
  split; [vm_compute; lia|].
  split; vm_compute; reflexivity.
Defined.

Lemma splits_double_dot :
  splits_into (lit "user@example..com") (lit "user") (lit "example..com").
Proof.
  unfold splits_into. cbv zeta.
  split; [vm_compute; discriminate|].
  split; [vm_compute; lia|].
  split; vm_compute; reflexivity.
Defined.

Lemma bad_local_char_named_witness :
  exists pre ch post,
    lit "a b" = pre ++ ch :: post
    /\ forallb allowed pre = true
    /\ in_set ch _LOCAL_ALLOWED = false
    /\ validate_email all_printable (VStr (lit "a b@example.com"))
       = Returns (false,
                  lit "Invalid character in local part: "
                  ++ py_repr all_printable [ch])
    /\ (32 <= ch < 127 -> ch <> quote1 -> ch <> backslash ->
        py_repr all_printable [ch] = [quote1; ch; quote1])
    /\ (forall ch' : char,
          ch <= 0x10FFFF -> ch' <= 0x10FFFF ->
          py_repr all_printable [ch'] = py_repr all_printable [ch] ->
          ch' = ch).
Proof.
  apply (proj1 (bad_local_char_named all_printable) _ _ _ splits_a_b).
  - vm_compute. discriminate.
  - vm_compute. lia.
  - unfold bad_dots. vm_compute. intros [H|[H|H]]; discriminate H.
  - vm_compute. reflexivity.
Defined.

Lemma empty_segment_rejected_witness :
  exists reason,
    validate_email all_printable (VStr (lit "user@example..com"))
    = Returns (false, reason).
Proof.
  apply (empty_segment_rejected all_printable splits_double_dot).
  right. left. unfold bad_dots. right. right. vm_compute. reflexivity.
Defined.

Lemma dotless_domain_rejected_witness :
  exists reason,
    validate_email all_printable (VStr (lit "user@example"))
    = Returns (false, reason).
Proof.
  apply (dotless_domain_rejected all_printable (lit "user@example")
           (local := lit "user") (domain := lit "example")).
  - vm_compute. reflexivity.
  - vm_compute. reflexivity.
  - apply (proj1 (py_count_zero_not_in dot (lit "example"))).
    vm_compute. reflexivity.
Defined.

Lemma bad_tld_rejected_witness :
  exists reason,
    validate_email all_printable (VStr (lit "user@example.c1"))
    = Returns (false, reason).
Proof.
  apply (proj1 (bad_tld_rejected all_printable) (lit "user@example.c1")
           (lit "user") (lit "example.c1") (lit "c1")).
  - vm_compute. reflexivity.
  - vm_compute. reflexivity.
  - vm_compute. reflexivity.
  - left. vm_compute. reflexivity.
Defined.

Lemma domain_too_long_unreachable_witness :
  (List.length (lit "example.com") <= 252)%nat
  /\ (255 <? List.length (lit "example.com"))%nat = false.
Proof.
  apply (proj2 (domain_too_long_unreachable all_printable)
           (lit "alice@example.com") (lit "alice") (lit "example.com")).
  - exact splits_alice.
  - vm_compute. discriminate.
Defined.

Lemma valid_iff_ok_witness :
  false = true <-> msg_no_tld_dot = msg_ok.
Proof.
  apply (valid_iff_ok all_printable (VStr (lit "user@example"))).
  vm_compute. reflexivity.
Defined.

Lemma valid_address_structure_witness :
  exists local domain,
    py_strip (lit " alice@example.com ") = local ++ at_sign :: domain
    /\ (List.length (py_strip (lit " alice@example.com ")) <= 254)%nat
    /\ local <> [] /\ (List.length local <= 64)%nat
    /\ ~ bad_dots local /\ forallb allowed local = true
    /\ ~ In at_sign domain /\ ~ bad_dots domain
    /\ (2 <= List.length (py_split dot domain))%nat
    /\ (forall label, In label (py_split dot domain) ->
          label <> [] /\ (List.length label <= 63)%nat
          /\ re_match _label_re label = true)
    /\ exists tld, py_last (py_split dot domain) = Some tld
                   /\ re_match _tld_re tld = true.
Proof.
  apply (valid_address_structure all_printable (lit " alice@example.com ")
           (m := msg_ok)).
  vm_compute. reflexivity.
Defined.

Lemma valid_characters_witness :
  (allowed (ord "x") = true \/ ord "x" = at_sign \/ ord "x" = 10)
  /\ ord "x" < 128.
Proof.
  apply (valid_characters all_printable (lit " alice@example.com ")
           (m := msg_ok)).
  - vm_compute. reflexivity.
  - vm_compute. do 7 right. left. reflexivity.
Defined.

Lemma surrounding_whitespace_ignored_witness :
  validate_email all_printable
    (VStr (lit "  " ++ lit "user@example" ++ [9; 10]))
  = validate_email all_printable (VStr (lit "user@example")).
Proof.
  apply (proj1 (surrounding_whitespace_ignored all_printable
                  (lit "user@example"))).
  - vm_compute. reflexivity.
  - vm_compute. reflexivity.
Defined.

(** On an ASCII-only standard output, an argument with a letter outside
    ASCII ends the run: the arguments before it are reported, the ones
    after it are not. *)
Lemma main_ascii_stdout_run :
  main all_printable ascii_stdout
    [lit "email_validator.py"; lit "alice@example.com";
     [0xE9] ++ lit "@example.com"; lit "user@example"]
  = ([lit "[VALID]   alice@example.com"], PrintRaised UnicodeEncodeError).
Proof. vm_compute. reflexivity. Qed.

Lemma main_reports_each_argument_witness :
  exists k,
    (k <= 3)%nat
    /\ fst (main all_printable ascii_stdout
              [lit "email_validator.py"; lit "alice@example.com";
               [0xE9] ++ lit "@example.com"; lit "user@example"])
       = firstn k (map (report all_printable)
                     [lit "alice@example.com";
                      [0xE9] ++ lit "@example.com"; lit "user@example"]).
Proof.
  destruct (main_reports_each_argument all_printable ascii_stdout
              [lit "email_validator.py"; lit "alice@example.com";
               [0xE9] ++ lit "@example.com"; lit "user@example"])
    as (_ & (k & Hk & Hfst & _) & _).
  - vm_compute. discriminate.
  - exists k. split; [exact Hk | exact Hfst].
Defined.


Lemma valid_length_bounds_witness :
  (6 <= List.length (py_strip (lit "a@b.cd")) <= 254)%nat.
Proof.
  apply (proj1 (valid_length_bounds all_printable) (lit "a@b.cd") msg_ok).
  vm_compute. reflexivity.
Defined.

Lemma bad_label_rejected_witness :
  exists reason,
    validate_email all_printable (VStr (lit "user@-example.com"))
    = Returns (false, reason).
Proof.
  apply (@bad_label_rejected all_printable (lit "user@-example.com")
           (lit "user") (lit "-example.com") (lit "-example")).
  - vm_compute. reflexivity.
  - vm_compute. left. reflexivity.
  - right. left. vm_compute. reflexivity.
Defined.

Lemma valid_tld_alphabetic_witness :
  exists pre tld,
    py_strip (lit "alice@example.com") = pre ++ dot :: tld
    /\ tld_rule tld = true.
Proof.
  apply (valid_tld_alphabetic all_printable (lit "alice@example.com")
           (m := msg_ok)).
  vm_compute. reflexivity.
Defined.
